(** * Classification of support dialogs: a model of [main.go]

    The development follows [src/main.go]: the scanner
    [analyzeDialogFolder], the aggregation loop of [main] and the ranking
    and trigger counting of [printStatistics].

    Go strings are byte strings and are modelled by Rocq's [string] (one
    [ascii] per byte).  Go maps are modelled by stdpp's [gmap]/[gset]; the
    order in which a [range] loop visits a map is not fixed by the
    language, so every such loop takes the visiting order as an explicit
    argument.  The file system is modelled by the values the calls
    [ioutil.ReadDir], [ioutil.ReadFile], [json.Unmarshal] and
    [os.MkdirAll] give back.  The counters of [main] are Go [int]s; they
    only ever count dialogs held in memory, so they are modelled by
    [nat]. *)

From Stdlib Require Import Ascii.
From stdpp Require Import base gmap sets list strings sorting list_numbers
  pretty.

#[local] Set Warnings "-clear-no-such-hyp".


(** ** Go's [strings] package: the byte-level functions *)

(** [strings.HasPrefix(s, prefix)]. *)
Fixpoint HasPrefix (s prefix : string) {struct prefix} : bool :=
  match prefix with
  | EmptyString => true
  | String p prefix' =>
      match s with
      | EmptyString => false
      | String c s' => if Ascii.eqb c p then HasPrefix s' prefix' else false
      end
  end.

(** [strings.Contains(s, substr)]. *)
Fixpoint Contains (s substr : string) : bool :=
  HasPrefix s substr
  || match s with
     | EmptyString => false
     | String _ s' => Contains s' substr
     end.

(** ** The regular expression [convFilePattern]

    [regexp.MustCompile(`conv_([A-Z]+-\d+)_`)].  Every atom of the
    pattern is an ASCII class, so matching bytes and matching runes agree.
    After [[A-Z]+] the pattern wants [-], which is no capital letter, and
    after [\d+] it wants [_], which is no digit: at a given start there is
    at most one match, the one taking the longest run of each class. *)

Definition isUpperAZ (c : ascii) : bool :=
  let n := nat_of_ascii c in (65 <=? n) && (n <=? 90).

Definition isDigit (c : ascii) : bool :=
  let n := nat_of_ascii c in (48 <=? n) && (n <=? 57).

(** The longest prefix of [s] made of bytes of class [p], and the rest. *)
Fixpoint span (p : ascii → bool) (s : string) : string * string :=
  match s with
  | EmptyString => (EmptyString, EmptyString)
  | String c s' =>
      if p c then let '(run, rest) := span p s' in (String c run, rest)
      else (EmptyString, s)
  end.

(** [s] without its prefix [prefix], when it has it. *)
Fixpoint stripPrefix (prefix s : string) : option string :=
  match prefix with
  | EmptyString => Some s
  | String p prefix' =>
      match s with
      | EmptyString => None
      | String c s' => if Ascii.eqb c p then stripPrefix prefix' s' else None
      end
  end.

(** The capture group of a match of the pattern that starts at the first
    byte of [s]. *)
Definition convFilePattern_at (s : string) : option string :=
  match stripPrefix "conv_" s with
  | None => None
  | Some r0 =>
      let '(letters, r1) := span isUpperAZ r0 in
      match letters, stripPrefix "-" r1 with
      | String _ _, Some r2 =>
          let '(digits, r3) := span isDigit r2 in
          match digits, stripPrefix "_" r3 with
          | String _ _, Some _ => Some (letters +:+ "-" +:+ digits)
          | _, _ => None
          end
      | _, _ => None
      end
  end.

(** [convFilePattern.FindStringSubmatch(s)]: the leftmost match and its
    capture group, or the empty slice. *)
Fixpoint convFilePattern_FindStringSubmatch (s : string) : list string :=
  match convFilePattern_at s with
  | Some g => ["conv_" +:+ g +:+ "_"; g]
  | None =>
      match s with
      | EmptyString => []
      | String _ s' => convFilePattern_FindStringSubmatch s'
      end
  end.

(** ** Data *)

Record Message := {
  UserID : string;
  Text : string;
  Timestamp : string
}.

Record ProblematicDialog := {
  FolderName : string;
  ID : string;
  Types : list string;
  Files : list string;
  Triggers : list string
}.

(** What reading and decoding one file of a dialog folder gives:
    [ioutil.ReadFile] fails, [json.Unmarshal] fails, or the field
    [Messages] of the decoded [ConversationChat]. *)
Inductive FileData :=
| ReadFileError
| UnmarshalError
| ChatMessages (msgs : list Message).

(** One entry of [ioutil.ReadDir(folderPath)]. *)
Record DirFile := {
  Name : string;
  Data : FileData
}.

(** One entry of [ioutil.ReadDir(inputDir)]; [entryDir] is what
    [ioutil.ReadDir] gives on the entry itself, [None] for an error. *)
Record RootEntry := {
  entryName : string;
  IsDir : bool;
  entryDir : option (list DirFile)
}.

(** The two maps that [main] fills: [stats] and [allDialogs]. *)
Record Aggregate := {
  stats : gmap string nat;
  allDialogs : gmap string (list ProblematicDialog)
}.

Definition emptyAggregate : Aggregate := {| stats := ∅; allDialogs := ∅ |}.

(** How [main] ends: the two early returns, each after printing its
    error, or the aggregate handed to [printStatistics] and
    [createIndexFile]. *)
Inductive RunResult :=
| MkdirTypeFailed (typeKey : string)
| ReadDirFailed
| Finished (agg : Aggregate).

(** The local variables of [analyzeDialogFolder] that its loops update;
    [ranges] counts the executions of the loop over [problemTypes]. *)
Record ScanState := {
  dialogID : string;
  foundTypes : gset string;
  foundTriggers : list string;
  ranges : nat
}.

Definition initialScan : ScanState :=
  {| dialogID := EmptyString; foundTypes := ∅; foundTriggers := []; ranges := 0 |}.

(** [sort.Strings]: ascending in Go's [<] on strings, which compares byte
    by byte.  The order is total and antisymmetric, so the result is the
    same for every sorting algorithm. *)
Definition sort_Strings (l : list string) : list string :=
  merge_sort String.le l.

Section Program.

(** [strings.ToLower] and [strings.EqualFold] of Go's library (they
    follow Unicode's case tables). *)
Variable ToLower : string → string.
Variable EqualFold : string → string → bool.

(** [FindPatternMatches(text, typeKey)], declared in another file of the
    package. *)
Variable FindPatternMatches : string → string → list string.

Section Scanner.

(** The keys that the [n]-th execution of
    [for typeKey := range problemTypes] visits, in order. *)
Variable rangeProblemTypes : nat → list string.

(** The order in which [for typeKey := range foundTypes] visits the
    set. *)
Variable rangeFoundTypes : gset string → list string.

(** Lines 220-226: is a trigger equal to [match] up to case already
    recorded? *)
Definition triggerExists (triggers : list string) (match_ : string) : bool :=
  existsb (λ t, EqualFold t match_) triggers.

(** Lines 219-230, one iteration. *)
Definition addTrigger (triggers : list string) (match_ : string) : list string :=
  if triggerExists triggers match_ then triggers else triggers ++ [match_].

(** Lines 211-231, one iteration. *)
Definition scanType (text : string) (acc : gset string * list string)
    (typeKey : string) : gset string * list string :=
  let matches := FindPatternMatches text typeKey in
  if length matches =? 0 then acc
  else ({[typeKey]} ∪ acc.1, foldl addTrigger acc.2 matches).

(** Lines 202-232, one iteration. *)
Definition scanMessage (st : ScanState) (msg : Message) : ScanState :=
  if negb (HasPrefix (UserID msg) "user_") then st
  else
    let text := ToLower (Text msg) in
    let acc := foldl (scanType text) (foundTypes st, foundTriggers st)
                     (rangeProblemTypes (ranges st)) in
    {| dialogID := dialogID st;
       foundTypes := acc.1;
       foundTriggers := acc.2;
       ranges := S (ranges st) |}.

(** Lines 183-189. *)
Definition extractID (fileName folderName : string) : string :=
  let matches := convFilePattern_FindStringSubmatch fileName in
  if 1 <? length matches then nth 1 matches EmptyString else folderName.

(** Lines 177-234, one iteration. *)
Definition scanFile (folderName : string) (st : ScanState) (f : DirFile)
    : ScanState :=
  if negb (Contains (Name f) "_chat.json") then st
  else
    let st1 := {| dialogID := extractID (Name f) folderName;
                  foundTypes := foundTypes st;
                  foundTriggers := foundTriggers st;
                  ranges := ranges st |} in
    match Data f with
    | ReadFileError => st1
    | UnmarshalError => st1
    | ChatMessages msgs => foldl scanMessage st1 msgs
    end.

Definition scanFolder (folderName : string) (files : list DirFile) : ScanState :=
  foldl (scanFile folderName) initialScan files.

(** [analyzeDialogFolder(folderPath, folderName)]; [dir] is what
    [ioutil.ReadDir(folderPath)] gives, [None] for an error. *)
Definition analyzeDialogFolder (dir : option (list DirFile))
    (folderName : string) : option ProblematicDialog :=
  match dir with
  | None => None
  | Some files =>
      let st := scanFolder folderName files in
      if 0 <? size (foundTypes st) then
        Some {| FolderName := folderName;
                ID := dialogID st;
                Types := sort_Strings (rangeFoundTypes (foundTypes st));
                Files := Name <$> files;
                Triggers := foundTriggers st |}
      else None
  end.

End Scanner.

(** ** [main]: dispatch and aggregation *)

Section Main.

(** [os.MkdirAll] on the directory of a type (line 62) and on the
    directory of a dialog below a type (line 114): does it succeed? *)
Variable mkdirTypeDir : string → bool.
Variable mkdirDialogDir : string → string → bool.

(** The order in which the loop of line 60 visits [problemTypes]. *)
Variable rangeTypeDirs : list string.

(** The visiting orders of the scanner's loops, for each folder. *)
Variable rangeProblemTypesOf : string → nat → list string.
Variable rangeFoundTypes : gset string → list string.

(** The order in which the dialogs sent by the goroutines are received
    from the channel [problematicDialogs]. *)
Variable arrival : list ProblematicDialog → list ProblematicDialog.

(** Lines 109-149, one iteration.  Copying the files and writing
    [trigger_info.txt] only print on failure and change neither map. *)
Definition aggregateType (dialog : ProblematicDialog) (agg : Aggregate)
    (typeKey : string) : Aggregate :=
  let stats' := <[typeKey := S (stats agg !!! typeKey)]> (stats agg) in
  if mkdirDialogDir typeKey (FolderName dialog) then
    {| stats := stats';
       allDialogs :=
         <[typeKey := (allDialogs agg !!! typeKey) ++ [dialog]]> (allDialogs agg) |}
  else {| stats := stats'; allDialogs := allDialogs agg |}.

(** Lines 107-150, one iteration. *)
Definition aggregateDialog (agg : Aggregate) (dialog : ProblematicDialog)
    : Aggregate :=
  foldl (aggregateType dialog) agg (Types dialog).

Definition aggregate (dialogs : list ProblematicDialog) : Aggregate :=
  foldl aggregateDialog emptyAggregate dialogs.

(** Lines 80-94: the dialogs that the goroutines send, in the order of
    the listing. *)
Definition scanFolders (folders : list RootEntry) : list ProblematicDialog :=
  omap (λ folder,
          if negb (IsDir folder) then None
          else analyzeDialogFolder (rangeProblemTypesOf (entryName folder))
                 rangeFoundTypes (entryDir folder) (entryName folder))
       folders.

(** [main], up to the call of [printStatistics]; [root] is what
    [ioutil.ReadDir(inputDir)] gives, [None] for an error. *)
Definition main (root : option (list RootEntry)) : RunResult :=
  match find (λ typeKey, negb (mkdirTypeDir typeKey)) rangeTypeDirs with
  | Some typeKey => MkdirTypeFailed typeKey
  | None =>
      match root with
      | None => ReadDirFailed
      | Some folders => Finished (aggregate (arrival (scanFolders folders)))
      end
  end.

End Main.

End Program.

(** ** [printStatistics] *)

Record StatsItem := {
  TypeKey : string;
  Count : nat
}.

(** The output of [printStatistics]. *)
Record Printed := {
  typeLines : list (StatsItem * list string);
  totalLine : nat;
  triggerLines : list StatsItem
}.

(** The comparison given to [sort.Slice] at lines 274 and 327:
    [statsList[i].Count > statsList[j].Count]. *)
Definition lessCount (a b : StatsItem) : bool := Count b <? Count a.

Section Statistics.

(** [sort.Slice(x, less)].  Go's library promises a sorted rearrangement
    and no stability. *)
Variable sortSlice : (StatsItem → StatsItem → bool) → list StatsItem → list StatsItem.

(** The visiting orders of the loops of lines 270, 306 and 320. *)
Variable rangeStats : gmap string nat → list (string * nat).
Variable rangeAllDialogs :
  gmap string (list ProblematicDialog) → list (string * list ProblematicDialog).
Variable rangeTriggerStats : gmap string nat → list (string * nat).

Definition toItems (l : list (string * nat)) : list StatsItem :=
  (λ kv, {| TypeKey := kv.1; Count := kv.2 |}) <$> l.

(** Lines 269-276. *)
Definition statsList (stats : gmap string nat) : list StatsItem :=
  sortSlice lessCount (toItems (rangeStats stats)).

(** Lines 278-299: the number printed as the total.  The sum is taken in
    [nat]; it is the number that Go's [int] holds as long as it fits one,
    which it does for the counts of a run. *)
Definition total (stats : gmap string nat) : nat :=
  foldl (λ t item, t + Count item) 0 (statsList stats).

(** Line 309. *)
Definition countTrigger (triggerStats : gmap string nat) (trigger : string)
    : gmap string nat :=
  <[trigger := S (triggerStats !!! trigger)]> triggerStats.

(** Lines 305-312. *)
Definition triggerStats (allDialogs : gmap string (list ProblematicDialog))
    : gmap string nat :=
  foldl (λ acc entry,
           foldl (λ acc dialog, foldl countTrigger acc (Triggers dialog))
                 acc entry.2)
        ∅ (rangeAllDialogs allDialogs).

(** Lines 315-329.  The items of the source are of an unnamed struct with
    the fields [Trigger] and [Count]; they are held in [StatsItem], the
    trigger in [TypeKey]. *)
Definition triggerList (allDialogs : gmap string (list ProblematicDialog))
    : list StatsItem :=
  sortSlice lessCount (toItems (rangeTriggerStats (triggerStats allDialogs))).

(** Lines 333-335: the triggers printed. *)
Definition topTriggers (allDialogs : gmap string (list ProblematicDialog))
    : list StatsItem :=
  take 10 (triggerList allDialogs).

(** [printStatistics(stats, allDialogs)]: what it prints, namely the
    ranking of the types, each with up to three folder names of its
    dialogs, the total, and the most frequent triggers. *)
Definition printStatistics (stats : gmap string nat)
    (allDialogs : gmap string (list ProblematicDialog)) : Printed :=
  {| typeLines :=
       (λ item, (item, FolderName <$> take 3 (allDialogs !!! TypeKey item)))
         <$> statsList stats;
     totalLine := total stats;
     triggerLines := topTriggers allDialogs |}.

End Statistics.

(** ** The reports: [trigger_info.txt] and [INDEX.md] *)

(** The line feed that Go writes for [\n]. *)
Definition LF : string := String (ascii_of_nat 10) EmptyString.

(** Lines 138-142: the text written to [trigger_info.txt] for a dialog
    below a type; [typeName] is [problemTypes[typeKey].Name]. *)
Definition infoContent (typeName : string) (dialog : ProblematicDialog)
    : string :=
  foldl (λ infoContent trigger, infoContent +:+ "- " +:+ trigger +:+ LF)
    ("Диалог: " +:+ ID dialog +:+ LF +:+ "Тип: " +:+ typeName +:+ LF +:+
    "Папка: " +:+ FolderName dialog +:+ LF +:+ "Найденные триггеры:" +:+ LF)
    (Triggers dialog).

(** Lines 355-360: the folder names of the dialogs of a type, written
    after [content]; [i] is the index of the first of [dialogs]. *)
Fixpoint writeFolderNames (content : string) (i : nat)
    (dialogs : list ProblematicDialog) : string :=
  match dialogs with
  | [] => content
  | dialog :: dialogs' =>
      let content := if 0 <? i then content +:+ ", " else content in
      writeFolderNames (content +:+ FolderName dialog) (S i) dialogs'
  end.

Section Index.

(** [problemTypes[typeKey].Name], from another file of the package. *)
Variable typeName : string → string.

(** The visiting orders of the loops of lines 347 and 372. *)
Variable rangeStats : gmap string nat → list (string * nat).
Variable rangeProblemTypes : list string.

(** Lines 343-344. *)
Definition indexHeader : string :=
  "# Индекс проблемных диалогов" +:+ LF +:+ LF +:+
  "## Статистика по типам проблем" +:+ LF +:+ LF.

(** Lines 347-365, one iteration: the section of a type is written and
    its count is added to the total.  The total is in [nat]; it is the
    number that Go's [int] holds as long as it fits one, which it does for
    the counts of a run. *)
Definition indexSection (allDialogs : gmap string (list ProblematicDialog))
    (acc : string * nat) (entry : string * nat) : string * nat :=
  let content := acc.1 +:+ "### " +:+ typeName entry.1 +:+ LF in
  let content :=
    content +:+ "- **Количество диалогов:** " +:+ pretty entry.2 +:+ LF in
  let content := content +:+ "- **Диалоги:** " in
  let content :=
    match allDialogs !! entry.1 with
    | Some dialogs =>
        if 0 <? length dialogs then writeFolderNames content 0 dialogs
        else content
    | None => content
    end in
  (content +:+ LF +:+ LF, acc.2 + entry.2).

(** Line 367. *)
Definition indexTotalLine (total : nat) : string :=
  "## Всего проблемных диалогов: " +:+ pretty total +:+ LF +:+ LF.

(** Lines 372-381, one iteration. *)
Definition indexStructureEntry (content typeKey : string) : string :=
  content +:+
  "├── " +:+ typeKey +:+ "/                # " +:+ typeName typeKey +:+
  LF +:+ "│   ├── AAA-11314/    # Папка диалога" +:+ LF +:+
  "│   │   ├── conv_AAA-11314_info.json" +:+ LF +:+
  "│   │   ├── conv_AAA-11314_chat.json" +:+ LF +:+
  "│   │   └── trigger_info.txt    # Найденные триггеры" +:+ LF +:+
  "│   └── BBB-22345/" +:+ LF +:+ "│       └── ..." +:+ LF.

(** Lines 369-371. *)
Definition indexStructureHeader : string :=
  "## Структура директорий" +:+ LF +:+ LF +:+ "```" +:+ LF +:+
  "problematicDialogs/" +:+ LF.

(** Lines 382-389. *)
Definition indexRules : string :=
  "└── INDEX.md              # Этот файл" +:+ LF +:+ "```" +:+ LF +:+ LF +:+
  "## Правила фильтрации" +:+ LF +:+ LF +:+
  "1. Проверяются только сообщения от клиентов (user_id с префиксом `user_`)" +:+
  LF +:+ "2. Триггеры ищутся как отдельные слова" +:+ LF +:+
  "3. Один диалог может относиться к нескольким типам проблем" +:+ LF +:+
  "4. Исходные папки диалогов сохраняются полностью со всеми файлами" +:+ LF.

(** [createIndexFile(outputBaseDir, stats, allDialogs)]: the text given to
    [ioutil.WriteFile] for [INDEX.md]. *)
Definition createIndexFile (stats : gmap string nat)
    (allDialogs : gmap string (list ProblematicDialog)) : string :=
  let acc := foldl (indexSection allDialogs) (indexHeader, 0) (rangeStats stats) in
  let content := acc.1 +:+ indexTotalLine acc.2 in
  let content := content +:+ indexStructureHeader in
  let content := foldl indexStructureEntry content rangeProblemTypes in
  content +:+ indexRules.

End Index.

(** ** The copies that [main] makes *)

(** A call on the file system that [main] makes while it aggregates, with
    its arguments and whether it succeeded.  A failure is printed and the
    loop goes on as the source says. *)
Inductive Effect :=
| MkdirAll (path : string) (ok : bool)
| ReadFile (path : string) (ok : bool)
| WriteFile (path content : string) (ok : bool).

(** Lines 56-57. *)
Definition inputDir : string := "./output/conversations".
Definition outputBaseDir : string := "./problematicDialogs".

Section Materialize.

(** [filepath.Join] of Go's library. *)
Variable Join : list string → string.

(** [problemTypes[typeKey].Name], from another file of the package. *)
Variable typeName : string → string.

(** [os.MkdirAll] on the directory of a dialog below a type, the content
    of a file of the input tree ([None] when [ioutil.ReadFile] fails), and
    whether [ioutil.WriteFile] of a content to a path succeeds. *)
Variable mkdirDialogDir : string → string → bool.
Variable readFile : string → option string.
Variable writeFile : string → string → bool.

(** Lines 120-134, one iteration. *)
Definition copyFile (dialog : ProblematicDialog) (typeDir file : string)
    : list Effect :=
  let srcPath := Join [inputDir; FolderName dialog; file] in
  let dstPath := Join [typeDir; file] in
  match readFile srcPath with
  | None => [ReadFile srcPath false]
  | Some input =>
      [ReadFile srcPath true; WriteFile dstPath input (writeFile dstPath input)]
  end.

(** Lines 109-149, one iteration, with the calls it makes. *)
Definition materializeType (dialog : ProblematicDialog)
    (acc : Aggregate * list Effect) (typeKey : string)
    : Aggregate * list Effect :=
  let stats' := <[typeKey := S (stats acc.1 !!! typeKey)]> (stats acc.1) in
  let typeDir := Join [outputBaseDir; typeKey; FolderName dialog] in
  if mkdirDialogDir typeKey (FolderName dialog) then
    let copies := Files dialog ≫= copyFile dialog typeDir in
    let infoFile := Join [typeDir; "trigger_info.txt"] in
    let info := infoContent (typeName typeKey) dialog in
    ({| stats := stats';
        allDialogs :=
          <[typeKey := (allDialogs acc.1 !!! typeKey) ++ [dialog]]>
            (allDialogs acc.1) |},
     acc.2 ++ MkdirAll typeDir true :: copies
           ++ [WriteFile infoFile info (writeFile infoFile info)])
  else
    ({| stats := stats'; allDialogs := allDialogs acc.1 |},
     acc.2 ++ [MkdirAll typeDir false]).

(** Lines 107-150, one iteration. *)
Definition materializeDialog (acc : Aggregate * list Effect)
    (dialog : ProblematicDialog) : Aggregate * list Effect :=
  foldl (materializeType dialog) acc (Types dialog).

(** Lines 103-150: the two maps and the calls made, for the dialogs in the
    order in which they are received. *)
Definition materialize (dialogs : list ProblematicDialog)
    : Aggregate * list Effect :=
  foldl materializeDialog (emptyAggregate, []) dialogs.

End Materialize.

(** ** The statements of the specification that the code is compared with *)

(** Every byte of [s] is of class [p]; [s] starts with a byte of class
    [p]. *)
Fixpoint allBytes (p : ascii → bool) (s : string) : bool :=
  match s with
  | EmptyString => true
  | String c s' => p c && allBytes p s'
  end.

Definition startsWith (p : ascii → bool) (s : string) : bool :=
  match s with
  | EmptyString => false
  | String c _ => p c
  end.

(** The regular expression read as a statement: [s] starts with a match
    of [conv_([A-Z]+-\d+)_] whose group is [g]. *)
Definition matchesHere (s g : string) : Prop :=
  ∃ letters digits rest,
    s = "conv_" +:+ letters +:+ "-" +:+ digits +:+ "_" +:+ rest
    ∧ letters ≠ EmptyString ∧ allBytes isUpperAZ letters = true
    ∧ digits ≠ EmptyString ∧ allBytes isDigit digits = true
    ∧ g = letters +:+ "-" +:+ digits.

(** A transcript: the test of line 179. *)
Definition isChat (f : DirFile) : Prop := Contains (Name f) "_chat.json" = true.

(** A client's message: the test of line 204. *)
Definition isClient (msg : Message) : Prop := HasPrefix (UserID msg) "user_" = true.

(** A file whose content the scanner cannot use. *)
Definition unreadable (f : DirFile) : Prop :=
  Data f = ReadFileError ∨ Data f = UnmarshalError.

Definition clientMessages (msgs : list Message) : list Message :=
  filter isClient msgs.

(** The file with every message of another author taken out. *)
Definition clientOnly (f : DirFile) : DirFile :=
  {| Name := Name f;
     Data := match Data f with
             | ChatMessages msgs => ChatMessages (clientMessages msgs)
             | data => data
             end |}.

(** The part of the scanner's state that the matches decide. *)
Definition findings (st : ScanState) : gset string * list string * nat :=
  (foundTypes st, foundTriggers st, ranges st).

(** No earlier entry of the list is equal up to case to a later one. *)
Definition foldDistinct (EqualFold : string → string → bool)
    (triggers : list string) : Prop :=
  StronglySorted (λ a b, EqualFold a b = false) triggers.

(** "A problem type matched a client message of a transcript of the
    folder": the type is configured, and the matcher finds one of its
    triggers in the lower-cased text of a client's message of a transcript
    that was read and decoded. *)
Definition messageMatches (ToLower : string → string)
    (FindPatternMatches : string → string → list string)
    (problemTypes : list string) (msg : Message) (typeKey : string) : Prop :=
  isClient msg ∧ typeKey ∈ problemTypes ∧
  FindPatternMatches (ToLower (Text msg)) typeKey ≠ [].

Definition fileMatches (ToLower : string → string)
    (FindPatternMatches : string → string → list string)
    (problemTypes : list string) (f : DirFile) (typeKey : string) : Prop :=
  isChat f ∧
  ∃ msgs msg, Data f = ChatMessages msgs ∧ msg ∈ msgs ∧
    messageMatches ToLower FindPatternMatches problemTypes msg typeKey.

Definition folderMatches (ToLower : string → string)
    (FindPatternMatches : string → string → list string)
    (problemTypes : list string) (files : list DirFile) (typeKey : string) : Prop :=
  ∃ f, f ∈ files ∧ fileMatches ToLower FindPatternMatches problemTypes f typeKey.

(** What a write below the directory of dialog [d] under type [t] may be:
    the trigger report, or the content read from a file of the dialog's
    folder, under the file's name. *)
Definition reportOrCopy (Join : list string → string)
    (typeName : string → string) (readFile : string → option string)
    (d : ProblematicDialog) (t path content : string) : Prop :=
  (path = Join [Join [outputBaseDir; t; FolderName d]; "trigger_info.txt"]
   ∧ content = infoContent (typeName t) d)
  ∨ ∃ file, file ∈ Files d
      ∧ path = Join [Join [outputBaseDir; t; FolderName d]; file]
      ∧ readFile (Join [inputDir; FolderName d; file]) = Some content.

(** The writes that materialize dialog [d] under type [t] are among the
    calls: the report, and a copy of every file of the folder that could
    be read. *)
Definition materialized (Join : list string → string)
    (typeName : string → string) (readFile : string → option string)
    (writeFile : string → string → bool)
    (d : ProblematicDialog) (t : string) (calls : list Effect) : Prop :=
  WriteFile (Join [Join [outputBaseDir; t; FolderName d]; "trigger_info.txt"])
    (infoContent (typeName t) d)
    (writeFile
       (Join [Join [outputBaseDir; t; FolderName d]; "trigger_info.txt"])
       (infoContent (typeName t) d)) ∈ calls
  ∧ ∀ file content,
      file ∈ Files d →
      readFile (Join [inputDir; FolderName d; file]) = Some content →
      WriteFile (Join [Join [outputBaseDir; t; FolderName d]; file]) content
        (writeFile (Join [Join [outputBaseDir; t; FolderName d]; file]) content)
        ∈ calls.

(** A text without a line feed. *)
Definition lineText (s : string) : Prop :=
  allBytes (λ c, negb (Ascii.eqb c (ascii_of_nat 10))) s = true.

(** The match [m] is in the trigger list, in its own casing or in
    another. *)
Definition recordedUpToCase (EqualFold : string → string → bool)
    (triggers : list string) (m : string) : Prop :=
  ∃ t, t ∈ triggers ∧ (t = m ∨ EqualFold t m = true).

(** The dialog ID as the specification words it: the first transcript
    name from which the pattern extracts an ID decides, and the folder
    name is used when none does. *)
Definition firstExtractedID (files : list DirFile) (folderName : string) : string :=
  let chats := filter isChat files in
  let ids := omap (λ f, convFilePattern_FindStringSubmatch (Name f) !! 1) chats in
  default folderName (head ids).

(** The type keys in the order in which [main] first counts them. *)
Definition firstCounted (dialogs : list ProblematicDialog) : list string :=
  remove_dups (dialogs ≫= Types).

(** The sum of [counts[t]] over all types [t]. *)
Definition sumCounts (stats : gmap string nat) : nat :=
  map_fold (λ _ count acc, count + acc) 0 stats.

(** [sort.Slice] on a slice of at most twelve elements runs Go's
    [insertionSortLessFunc]: each element in turn is swapped to the left
    while [less] puts it before its left neighbour.  [sinkLeft] works on
    the sorted prefix in reverse. *)
Fixpoint sinkLeft {A} (less : A → A → bool) (x : A) (revPrefix : list A) : list A :=
  match revPrefix with
  | [] => [x]
  | p :: ps => if less x p then p :: sinkLeft less x ps else x :: p :: ps
  end.

Definition insertionSort {A} (less : A → A → bool) (l : list A) : list A :=
  reverse (foldl (λ revPrefix x, sinkLeft less x revPrefix) [] l).

(** The ranking as the specification words it: the types in the order in
    which they were first counted, sorted stably, highest count first. *)
Definition stableRanking (dialogs : list ProblematicDialog)
    (stats : gmap string nat) : list StatsItem :=
  insertionSort lessCount
    (toItems ((λ typeKey, (typeKey, stats !!! typeKey)) <$> firstCounted dialogs)).

(** How often the string [trigger] itself stands in a list. *)
Definition occurrences (trigger : string) (triggers : list string) : nat :=
  length (filter (λ t, t = trigger) triggers).

(** Every list of [allDialogs] is at most as long as the count of its
    type. *)
Definition listed (agg : Aggregate) : Prop :=
  ∀ typeKey, length (allDialogs agg !!! typeKey) ≤ stats agg !!! typeKey.

(** ** Instances for the examples *)

(** [strings.ToLower] and [strings.EqualFold] on strings of ASCII bytes. *)
Definition asciiLower (c : ascii) : ascii :=
  if isUpperAZ c then ascii_of_nat (nat_of_ascii c + 32) else c.

Fixpoint asciiToLower (s : string) : string :=
  match s with
  | EmptyString => EmptyString
  | String c s' => String (asciiLower c) (asciiToLower s')
  end.

Fixpoint asciiEqualFold (s t : string) : bool :=
  match s, t with
  | EmptyString, EmptyString => true
  | String a s', String b t' =>
      Ascii.eqb (asciiLower a) (asciiLower b) && asciiEqualFold s' t'
  | _, _ => false
  end.

(** A sample configuration: two problem types and their triggers, and a
    matcher that reports the configured triggers occurring in the text. *)
Definition sampleTypes : list (string * list string) :=
  [("billing", ["refund"; "charge"]); ("refund", ["Refund"; "money back"])].

Definition sampleMatches (text typeKey : string) : list string :=
  match list_to_map (M := gmap string (list string)) sampleTypes !! typeKey with
  | Some triggers => filter (λ t, Contains text (asciiToLower t) = true) triggers
  | None => []
  end.

Definition sampleAnalyze (order : list string)
    : option (list DirFile) → string → option ProblematicDialog :=
  analyzeDialogFolder asciiToLower asciiEqualFold sampleMatches
    (λ _, order) (λ s, elements s).

Definition client (text : string) : Message :=
  {| UserID := "user_17"; Text := text; Timestamp := "2024-01-01 10:00:00" |}.

Definition operator (text : string) : Message :=
  {| UserID := "operator_3"; Text := text; Timestamp := "2024-01-01 10:01:00" |}.

(** A folder with one transcript, in which the client writes the same
    trigger in two casings, and the dialog the scanner makes of it. *)
Definition sampleFolder : list DirFile :=
  [ {| Name := "conv_AAA-1_chat.json";
       Data := ChatMessages [operator "refund"; client "I want a Refund, a REFUND"] |};
    {| Name := "conv_AAA-1_info.json"; Data := ReadFileError |} ].

Definition sampleDialog : ProblematicDialog :=
  {| FolderName := "AAA-1"; ID := "AAA-1";
     Types := ["billing"; "refund"];
     Files := ["conv_AAA-1_chat.json"; "conv_AAA-1_info.json"];
     Triggers := ["Refund"] |}.

(** Two transcripts in one folder whose names carry different IDs; only
    the first has a client message with a trigger. *)
Definition twoTranscripts : list DirFile :=
  [ {| Name := "conv_AAA-1_chat.json";
       Data := ChatMessages [client "refund please"] |};
    {| Name := "conv_BBB-2_chat.json";
       Data := ChatMessages [operator "hello"] |} ].

Definition twoTranscriptsDialog : ProblematicDialog :=
  {| FolderName := "AAA-1"; ID := "BBB-2"; Types := ["billing"; "refund"];
     Files := ["conv_AAA-1_chat.json"; "conv_BBB-2_chat.json"];
     Triggers := ["Refund"] |}.

(** An input root: a plain file, two dialog folders with a transcript,
    and a folder that cannot be listed. *)
Definition sampleRoot : list RootEntry :=
  [ {| entryName := "README.txt"; IsDir := false; entryDir := None |};
    {| entryName := "AAA-1"; IsDir := true; entryDir := Some sampleFolder |};
    {| entryName := "BBB-2"; IsDir := true;
       entryDir := Some [ {| Name := "conv_BBB-2_chat.json";
                             Data := ChatMessages [client "please refund"] |} ] |};
    {| entryName := "CCC-3"; IsDir := true; entryDir := None |} ].

(** The scan of [BBB-2] visits the types in the other order. *)
Definition sampleOrders (folderName : string) (n : nat) : list string :=
  if String.eqb folderName "BBB-2" then ["billing"; "refund"]
  else ["refund"; "billing"].

Definition sampleScanFolders : list RootEntry → list ProblematicDialog :=
  scanFolders asciiToLower asciiEqualFold sampleMatches sampleOrders
    (λ s, elements s).

Definition sampleMain (mkdirDialogDir : string → string → bool)
    (arrival : list ProblematicDialog → list ProblematicDialog)
    : option (list RootEntry) → RunResult :=
  main asciiToLower asciiEqualFold sampleMatches (λ _, true) mkdirDialogDir
    ["billing"; "refund"] sampleOrders (λ s, elements s) arrival.

(** The aggregate of the example when every directory can be made. *)
Definition sampleAggregate : Aggregate :=
  aggregate (λ _ _, true) (sampleScanFolders sampleRoot).

(** A visiting order of a map: by descending key. *)
Definition rangeDescending {V} (m : gmap string V) : list (string * V) :=
  merge_sort (λ a b, String.le b.1 a.1) (map_to_list m).

(** A file system for the example: paths are joined with a slash, the
    directories of [BBB-2] cannot be made, a file of the input tree holds
    its own path unless its name has [info] in it, in which case it cannot
    be read, and every write succeeds. *)
Definition sampleJoin (parts : list string) : string := String.concat "/" parts.

Definition sampleMaterialize : list ProblematicDialog → Aggregate * list Effect :=
  materialize sampleJoin (λ typeKey, typeKey)
    (λ _ folderName, negb (String.eqb folderName "BBB-2"))
    (λ path, if Contains path "info" then None else Some path)
    (λ _ _, true).

Example extract_chat_name :
  extractID "conv_AAA-11314_chat.json" "folder" = "AAA-11314".
Proof. reflexivity. Qed.

Example extract_no_pattern :
  extractID "dialog_chat.json" "folder" = "folder".
Proof. reflexivity. Qed.

Example sample_scan :
  sampleAnalyze ["refund"; "billing"] (Some sampleFolder) "AAA-1" = Some sampleDialog.
Proof. vm_compute. reflexivity. Qed.

(** The other visiting order keeps the other casing. *)
Example sample_scan_other_order :
  Triggers <$> sampleAnalyze ["billing"; "refund"] (Some sampleFolder) "AAA-1"
  = Some ["refund"].
Proof. vm_compute. reflexivity. Qed.

(** ** Go's [strings] functions *)

Lemma HasPrefix_spec s prefix :
  HasPrefix s prefix = true ↔ ∃ rest, s = prefix +:+ rest.
Proof.
  revert s. induction prefix as [|p prefix IH]; intros s; simpl.
  - split; [by exists s|done].
  - destruct s as [|c s]; [split; [done|by intros [? ?]]|].
    destruct (Ascii.eqb c p) eqn:E.
    + apply Ascii.eqb_eq in E as ->. rewrite IH.
      split; intros [rest H]; exists rest; [by rewrite H|by injection H].
    + split; [done|]. intros [rest [= -> _]]. by rewrite Ascii.eqb_refl in E.
Qed.

Lemma Contains_spec s substr :
  Contains s substr = true ↔ ∃ pre post, s = pre +:+ substr +:+ post.
Proof.
  induction s as [|c s IH]; simpl.
  - rewrite orb_false_r, HasPrefix_spec. split.
    + intros [rest H]. by exists EmptyString, rest.
    + intros ([|??] & post & H); [by exists post|done].
  - rewrite orb_true_iff, HasPrefix_spec, IH. split.
    + intros [[rest H] | (pre & post & ->)]; [by exists EmptyString, rest|].
      by exists (String c pre), post.
    + intros ([|c' pre] & post & H); [left; by exists post|].
      right. exists pre, post.
      change (String c s = String c' (pre +:+ substr +:+ post)) in H.
      by injection H.
Qed.

(** ** The pattern [convFilePattern] *)

Lemma stripPrefix_Some prefix s r :
  stripPrefix prefix s = Some r ↔ s = prefix +:+ r.
Proof.
  revert s. induction prefix as [|p prefix IH]; intros s; simpl.
  - split; [by intros [= ->]|by intros ->].
  - destruct s as [|c s]; [done|].
    destruct (Ascii.eqb c p) eqn:E.
    + apply Ascii.eqb_eq in E as ->. rewrite IH. split; [by intros ->|].
      by intros [= ->].
    + split; [done|]. intros [= -> _]. by rewrite Ascii.eqb_refl in E.
Qed.

Lemma span_spec p s run rest :
  span p s = (run, rest) →
  s = run +:+ rest ∧ allBytes p run = true ∧ startsWith p rest = false.
Proof.
  revert run rest. induction s as [|c s IH]; intros run rest; simpl.
  - by intros [= <- <-].
  - destruct (p c) eqn:E.
    + destruct (span p s) as [run' rest'] eqn:Es. intros [= <- <-].
      destruct (IH _ _ eq_refl) as (-> & Hrun & Hrest). simpl.
      by rewrite E.
    + intros [= <- <-]. simpl. by rewrite E.
Qed.

Lemma span_app p run rest :
  allBytes p run = true → startsWith p rest = false →
  span p (run +:+ rest) = (run, rest).
Proof.
  intros Hrun Hrest. induction run as [|c run IH]; simpl in *.
  - destruct rest as [|c rest]; [done|]. simpl in *. by rewrite Hrest.
  - apply andb_true_iff in Hrun as [-> Hrun]. by rewrite IH.
Qed.

Lemma convFilePattern_at_spec s g :
  convFilePattern_at s = Some g ↔ matchesHere s g.
Proof.
  unfold convFilePattern_at, matchesHere. split.
  - destruct (stripPrefix "conv_" s) as [r0|] eqn:E0; [|done].
    apply stripPrefix_Some in E0 as ->.
    destruct (span isUpperAZ r0) as [letters r1] eqn:E1.
    apply span_spec in E1 as (-> & Hletters & _).
    destruct letters as [|l letters]; [done|].
    destruct (stripPrefix "-" r1) as [r2|] eqn:E2; [|done].
    apply stripPrefix_Some in E2 as ->.
    destruct (span isDigit r2) as [digits r3] eqn:E3.
    apply span_spec in E3 as (-> & Hdigits & _).
    destruct digits as [|d digits]; [done|].
    destruct (stripPrefix "_" r3) as [r4|] eqn:E4; [|done].
    apply stripPrefix_Some in E4 as ->. intros [= <-].
    by exists (String l letters), (String d digits), r4.
  - intros (letters & digits & rest & -> & Hl & Hup & Hd & Hdig & ->).
    change (stripPrefix "conv_" ("conv_" +:+ letters +:+ "-" +:+ digits +:+ "_" +:+ rest))
      with (Some (letters +:+ "-" +:+ digits +:+ "_" +:+ rest)).
    cbv beta iota. rewrite (span_app isUpperAZ letters) by done.
    destruct letters as [|l letters]; [done|].
    change (stripPrefix "-" ("-" +:+ digits +:+ "_" +:+ rest))
      with (Some (digits +:+ "_" +:+ rest)).
    cbv beta iota. rewrite (span_app isDigit digits) by done.
    by destruct digits as [|d digits].
Qed.

(** [FindStringSubmatch] gives the match that starts leftmost. *)
Lemma FindStringSubmatch_found s w g :
  convFilePattern_FindStringSubmatch s = [w; g] →
  w = "conv_" +:+ g +:+ "_"
  ∧ ∃ pre post, s = pre +:+ post ∧ matchesHere post g
      ∧ ∀ pre' post' g', s = pre' +:+ post' →
          String.length pre' < String.length pre → ¬ matchesHere post' g'.
Proof.
  revert w g. induction s as [|c s IH]; intros w g; simpl.
  - done.
  - destruct (convFilePattern_at (String c s)) as [g0|] eqn:E.
    + intros [= <- <-]. split; [done|].
      exists EmptyString, (String c s). split_and!; [done| |simpl; lia].
      by apply convFilePattern_at_spec.
    + intros H. destruct (IH _ _ H) as (-> & pre & post & -> & Hm & Hleft).
      split; [done|]. exists (String c pre), post. split_and!; [done..|].
      intros [|c' pre'] post' g' Heq Hlen Hm'; simpl in *.
      * change (String c (pre +:+ post) = post') in Heq. subst post'.
        apply convFilePattern_at_spec in Hm'. congruence.
      * change (String c (pre +:+ post) = String c' (pre' +:+ post')) in Heq.
        injection Heq as <- Heq. eapply (Hleft pre'); [done|lia|done].
Qed.

Lemma FindStringSubmatch_none s :
  convFilePattern_FindStringSubmatch s = [] ↔
  ∀ pre post g, s = pre +:+ post → ¬ matchesHere post g.
Proof.
  induction s as [|c s IH]; simpl.
  - split; [|done]. intros _ [|??] post g; [|done].
    change (EmptyString = post → ¬ matchesHere post g). intros <- Hm.
    by apply convFilePattern_at_spec in Hm.
  - destruct (convFilePattern_at (String c s)) as [g0|] eqn:E.
    + split; [done|]. intros H. destruct (H EmptyString (String c s) g0); [done|].
      by apply convFilePattern_at_spec.
    + rewrite IH. split.
      * intros H [|c' pre] post g.
        -- change (String c s = post → ¬ matchesHere post g). intros <- Hm.
           apply convFilePattern_at_spec in Hm. congruence.
        -- change (String c s = String c' (pre +:+ post) → ¬ matchesHere post g).
           intros [= <- ->]. by apply (H pre).
      * intros H pre post g ->. by apply (H (String c pre)).
Qed.

(** ** Facts about the scanner *)

Section ScannerFacts.

Variable ToLower : string → string.
Variable EqualFold : string → string → bool.
Variable FindPatternMatches : string → string → list string.
Variable rangeProblemTypes : nat → list string.
Variable rangeFoundTypes : gset string → list string.

Local Abbreviation addT := (addTrigger EqualFold).
Local Abbreviation scanT := (scanType EqualFold FindPatternMatches).
Local Abbreviation scanM :=
  (scanMessage ToLower EqualFold FindPatternMatches rangeProblemTypes).
Local Abbreviation scanF :=
  (scanFile ToLower EqualFold FindPatternMatches rangeProblemTypes).
Local Abbreviation scanAll :=
  (scanFolder ToLower EqualFold FindPatternMatches rangeProblemTypes).
Local Abbreviation analyze :=
  (analyzeDialogFolder ToLower EqualFold FindPatternMatches
     rangeProblemTypes rangeFoundTypes).
Local Abbreviation distinct := (foldDistinct EqualFold).

Lemma triggerExists_true triggers m :
  triggerExists EqualFold triggers m = true ↔
  ∃ t, t ∈ triggers ∧ EqualFold t m = true.
Proof.
  unfold triggerExists. rewrite existsb_exists.
  split; intros (t & Ht & E); exists t; split; auto; by apply list_elem_of_In.
Qed.

Lemma triggerExists_false triggers m :
  triggerExists EqualFold triggers m = false ↔
  ∀ t, t ∈ triggers → EqualFold t m = false.
Proof.
  split.
  - intros E t Ht. destruct (EqualFold t m) eqn:Et; [|done].
    assert (triggerExists EqualFold triggers m = true) as E'
      by (apply triggerExists_true; eauto).
    congruence.
  - intros H. destruct (triggerExists EqualFold triggers m) eqn:E; [|done].
    apply triggerExists_true in E as (t & Ht & Et).
    rewrite (H t Ht) in Et. done.
Qed.

Lemma addTrigger_recorded triggers m :
  (∃ t, t ∈ triggers ∧ EqualFold t m = true) → addT triggers m = triggers.
Proof.
  intros H%triggerExists_true. unfold addTrigger. by rewrite H.
Qed.

Lemma addTrigger_new triggers m :
  (∀ t, t ∈ triggers → EqualFold t m = false) →
  addT triggers m = triggers ++ [m].
Proof.
  intros H%triggerExists_false. unfold addTrigger. by rewrite H.
Qed.

Lemma addTrigger_prefix triggers m : triggers `prefix_of` addT triggers m.
Proof.
  unfold addTrigger. destruct (triggerExists _ _ _); [reflexivity|].
  by apply prefix_app_r.
Qed.

Lemma addTrigger_distinct triggers m :
  distinct triggers → distinct (addT triggers m).
Proof.
  intros Hd. unfold addTrigger.
  destruct (triggerExists EqualFold triggers m) eqn:E; [done|].
  apply StronglySorted_app_2; [|done|repeat constructor].
  intros a b Ha ->%list_elem_of_singleton.
  by eapply triggerExists_false.
Qed.

Lemma addTriggers_distinct matches triggers :
  distinct triggers → distinct (foldl addT triggers matches).
Proof.
  revert triggers. induction matches as [|m matches IH]; intros triggers Hd;
    [done|]. simpl. by apply IH, addTrigger_distinct.
Qed.

Lemma addTriggers_prefix matches triggers :
  triggers `prefix_of` foldl addT triggers matches.
Proof.
  revert triggers. induction matches as [|m matches IH]; intros triggers;
    [done|]. simpl. etrans; [apply addTrigger_prefix|apply IH].
Qed.

(** *** What the loops keep *)

Section Kept.

(** A property of the trigger list that recording a trigger keeps. *)
Variable P : list string → Prop.
Hypothesis P_addTrigger : ∀ triggers m, P triggers → P (addT triggers m).

Lemma kept_addTriggers matches triggers :
  P triggers → P (foldl addT triggers matches).
Proof.
  revert triggers. induction matches as [|m matches IH]; intros triggers Hd;
    [done|]. simpl. by apply IH, P_addTrigger.
Qed.

Lemma kept_scanType text acc typeKey : P acc.2 → P (scanT text acc typeKey).2.
Proof.
  intros H. unfold scanType.
  destruct (length _ =? 0); [done|]. simpl. by apply kept_addTriggers.
Qed.

Lemma kept_scanTypes text keys acc :
  P acc.2 → P (foldl (scanT text) acc keys).2.
Proof.
  revert acc. induction keys as [|k keys IH]; intros acc H; [done|].
  simpl. by apply IH, kept_scanType.
Qed.

Lemma kept_scanMessage st msg :
  P (foundTriggers st) → P (foundTriggers (scanM st msg)).
Proof.
  intros H. unfold scanMessage.
  destruct (negb _); [done|]. simpl. by apply kept_scanTypes.
Qed.

Lemma kept_scanMessages msgs st :
  P (foundTriggers st) → P (foundTriggers (foldl scanM st msgs)).
Proof.
  revert st. induction msgs as [|msg msgs IH]; intros st H; [done|].
  simpl. by apply IH, kept_scanMessage.
Qed.

Lemma kept_scanFile folderName st f :
  P (foundTriggers st) → P (foundTriggers (scanF folderName st f)).
Proof.
  intros H. unfold scanFile.
  destruct (negb _); [done|].
  destruct (Data f); [done|done|]. by apply kept_scanMessages.
Qed.

Lemma kept_scanFiles folderName files st :
  P (foundTriggers st) →
  P (foundTriggers (foldl (scanF folderName) st files)).
Proof.
  revert st. induction files as [|f files IH]; intros st H; [done|].
  simpl. by apply IH, kept_scanFile.
Qed.

End Kept.

Lemma scanFolder_distinct folderName files :
  distinct (foundTriggers (scanAll folderName files)).
Proof.
  unfold scanFolder.
  apply kept_scanFiles; [apply addTrigger_distinct|constructor].
Qed.

Lemma scanMessage_prefix st msg :
  foundTriggers st `prefix_of` foundTriggers (scanM st msg).
Proof.
  apply (kept_scanMessage (λ l, foundTriggers st `prefix_of` l));
    [|reflexivity].
  intros l m H. etrans; [exact H|apply addTrigger_prefix].
Qed.

Lemma scanFile_prefix folderName st f :
  foundTriggers st `prefix_of` foundTriggers (scanF folderName st f).
Proof.
  apply (kept_scanFile (λ l, foundTriggers st `prefix_of` l));
    [|reflexivity].
  intros l m H. etrans; [exact H|apply addTrigger_prefix].
Qed.

(** *** Messages that are not the client's *)

Lemma scanMessage_not_client st msg :
  HasPrefix (UserID msg) "user_" = false → scanM st msg = st.
Proof. intros H. unfold scanMessage. by rewrite H. Qed.

Lemma scanMessages_client msgs st :
  foldl scanM st msgs = foldl scanM st (clientMessages msgs).
Proof.
  revert st. induction msgs as [|msg msgs IH]; intros st; [done|].
  unfold clientMessages. rewrite filter_cons. case_decide as Hc; simpl.
  - apply IH.
  - rewrite scanMessage_not_client; [apply IH|].
    unfold isClient in Hc. by destruct (HasPrefix _ _).
Qed.

Lemma scanFile_clientOnly folderName st f :
  scanF folderName st (clientOnly f) = scanF folderName st f.
Proof.
  unfold scanFile. simpl. destruct (negb _); [done|].
  destruct (Data f); [done|done|]. symmetry. apply scanMessages_client.
Qed.

Lemma scanFolder_clientOnly folderName files :
  scanAll folderName (clientOnly <$> files) = scanAll folderName files.
Proof.
  unfold scanFolder. generalize initialScan.
  induction files as [|f files IH]; intros st; [done|].
  simpl. rewrite scanFile_clientOnly. apply IH.
Qed.

(** *** Files that cannot be read or decoded *)

Lemma scanMessage_findings st st' msg :
  findings st = findings st' →
  findings (scanM st msg) = findings (scanM st' msg).
Proof.
  destruct st, st'. unfold findings, scanMessage. simpl.
  intros [= -> -> ->]. by destruct (negb _).
Qed.

Lemma scanMessages_findings msgs st st' :
  findings st = findings st' →
  findings (foldl scanM st msgs) = findings (foldl scanM st' msgs).
Proof.
  revert st st'. induction msgs as [|msg msgs IH]; intros st st' H; [done|].
  simpl. by apply IH, scanMessage_findings.
Qed.

Lemma scanFile_findings folderName st st' f :
  findings st = findings st' →
  findings (scanF folderName st f) = findings (scanF folderName st' f).
Proof.
  intros H. unfold scanFile. destruct (negb _); [done|].
  assert (∀ id id',
    findings {| dialogID := id; foundTypes := foundTypes st;
                foundTriggers := foundTriggers st; ranges := ranges st |}
    = findings {| dialogID := id'; foundTypes := foundTypes st';
                  foundTriggers := foundTriggers st'; ranges := ranges st' |})
    as H1 by (intros; exact H).
  destruct (Data f); [apply H1|apply H1|].
  apply scanMessages_findings, H1.
Qed.

Lemma scanFiles_findings folderName files st st' :
  findings st = findings st' →
  findings (foldl (scanF folderName) st files)
  = findings (foldl (scanF folderName) st' files).
Proof.
  revert st st'. induction files as [|f files IH]; intros st st' H; [done|].
  simpl. by apply IH, scanFile_findings.
Qed.

Lemma scanFile_unreadable folderName st f :
  unreadable f → findings (scanF folderName st f) = findings st.
Proof.
  intros H. unfold scanFile. destruct (negb _); [done|].
  by destruct H as [-> | ->].
Qed.

Lemma scanFolder_unreadable folderName pre f post :
  unreadable f →
  findings (scanAll folderName (pre ++ f :: post))
  = findings (scanAll folderName (pre ++ post)).
Proof.
  intros H. unfold scanFolder. rewrite !foldl_app. simpl.
  by apply scanFiles_findings, scanFile_unreadable.
Qed.

(** *** The dialog ID *)

Lemma scanMessages_dialogID msgs st : dialogID (foldl scanM st msgs) = dialogID st.
Proof.
  revert st. induction msgs as [|msg msgs IH]; intros st; [done|].
  simpl. rewrite IH. unfold scanMessage. by destruct (negb _).
Qed.

Lemma scanFile_chat_dialogID folderName st f :
  isChat f → dialogID (scanF folderName st f) = extractID (Name f) folderName.
Proof.
  unfold isChat, scanFile. intros ->. simpl.
  destruct (Data f); [done|done|]. by rewrite scanMessages_dialogID.
Qed.

Lemma scanFile_other folderName st f : ¬ isChat f → scanF folderName st f = st.
Proof.
  unfold isChat, scanFile. by destruct (Contains _ _).
Qed.

Lemma scanFiles_dialogID folderName files st :
  dialogID (foldl (scanF folderName) st files)
  = match last (filter isChat files) with
    | Some f => extractID (Name f) folderName
    | None => dialogID st
    end.
Proof.
  revert st. induction files as [|f files IH]; intros st; [done|].
  simpl. rewrite IH, filter_cons. case_decide as Hc.
  - rewrite last_cons. destruct (last _); [done|].
    by apply scanFile_chat_dialogID.
  - by rewrite scanFile_other.
Qed.

Lemma scanFiles_no_chat folderName files st :
  filter isChat files = [] → foldl (scanF folderName) st files = st.
Proof.
  revert st. induction files as [|f files IH]; intros st; [done|].
  rewrite filter_cons. case_decide as Hc; [done|].
  intros H. simpl. rewrite scanFile_other by done. by apply IH.
Qed.

(** *** The types found *)

Section Found.

(** The keys of the map [problemTypes]; every loop over the map
    visits each of them once. *)
Variable problemTypes : list string.
Hypothesis range_keys : ∀ n, rangeProblemTypes n ≡ₚ problemTypes.

Local Abbreviation msgMatches :=
  (messageMatches ToLower FindPatternMatches problemTypes).
Local Abbreviation fMatches :=
  (fileMatches ToLower FindPatternMatches problemTypes).
Local Abbreviation dirMatches :=
  (folderMatches ToLower FindPatternMatches problemTypes).

Lemma scanType_types text acc typeKey k :
  k ∈ (scanT text acc typeKey).1 ↔
  k ∈ acc.1 ∨ (k = typeKey ∧ FindPatternMatches text k ≠ []).
Proof.
  unfold scanType.
  destruct (FindPatternMatches text typeKey) as [|m ms] eqn:E; simpl.
  - split; [by left|]. intros [H | [-> H]]; [done|]. by rewrite E in H.
  - rewrite elem_of_union, elem_of_singleton. split.
    + intros [-> | H]; [right|by left]. by rewrite E.
    + intros [H | [-> _]]; [by right|by left].
Qed.

Lemma scanTypes_types text keys acc k :
  k ∈ (foldl (scanT text) acc keys).1 ↔
  k ∈ acc.1 ∨ (k ∈ keys ∧ FindPatternMatches text k ≠ []).
Proof.
  revert acc. induction keys as [|key keys IH]; intros acc; simpl.
  - split; [by left|]. intros [H | [H _]]; [done|]. by apply elem_of_nil in H.
  - rewrite IH, scanType_types, elem_of_cons. naive_solver.
Qed.

Lemma scanMessage_types st msg k :
  k ∈ foundTypes (scanM st msg) ↔ k ∈ foundTypes st ∨ msgMatches msg k.
Proof.
  unfold scanMessage, messageMatches, isClient.
  destruct (HasPrefix (UserID msg) "user_"); simpl.
  - rewrite scanTypes_types. simpl. rewrite (range_keys (ranges st)).
    naive_solver.
  - naive_solver.
Qed.

Lemma scanMessages_types msgs st k :
  k ∈ foundTypes (foldl scanM st msgs) ↔
  k ∈ foundTypes st ∨ ∃ msg, msg ∈ msgs ∧ msgMatches msg k.
Proof.
  revert st. induction msgs as [|msg msgs IH]; intros st; simpl.
  - split; [by left|]. intros [H | (msg & H & _)]; [done|].
    by apply elem_of_nil in H.
  - rewrite IH, scanMessage_types. setoid_rewrite elem_of_cons. naive_solver.
Qed.

Lemma scanFile_types folderName st f k :
  k ∈ foundTypes (scanF folderName st f) ↔ k ∈ foundTypes st ∨ fMatches f k.
Proof.
  unfold scanFile, fileMatches, isChat.
  destruct (Contains (Name f) "_chat.json"); simpl; [|naive_solver].
  destruct (Data f) as [| |msgs]; simpl; [naive_solver|naive_solver|].
  rewrite scanMessages_types. simpl. naive_solver.
Qed.

Lemma scanFiles_types folderName files st k :
  k ∈ foundTypes (foldl (scanF folderName) st files) ↔
  k ∈ foundTypes st ∨ ∃ f, f ∈ files ∧ fMatches f k.
Proof.
  revert st. induction files as [|f files IH]; intros st; simpl.
  - split; [by left|]. intros [H | (f & H & _)]; [done|].
    by apply elem_of_nil in H.
  - rewrite IH, scanFile_types. setoid_rewrite elem_of_cons. naive_solver.
Qed.

Lemma scanFolder_types folderName files k :
  k ∈ foundTypes (scanAll folderName files) ↔ dirMatches files k.
Proof.
  unfold scanFolder, folderMatches. rewrite scanFiles_types. simpl.
  rewrite elem_of_empty. naive_solver.
Qed.

End Found.

End ScannerFacts.

(** ** The scanner's properties *)

Lemma StronglySorted_lookup {A} (R : relation A) (l : list A) i j a b :
  StronglySorted R l → i < j → l !! i = Some a → l !! j = Some b → R a b.
Proof.
  intros Hs Hij Ha Hb.
  rewrite <- (take_drop j l) in Hs.
  eapply StronglySorted_app_1_elem_of; [exact Hs| |].
  - apply list_elem_of_lookup. exists i. by rewrite lookup_take_lt.
  - apply list_elem_of_lookup. exists 0. by rewrite lookup_drop, Nat.add_0_r.
Qed.

Lemma asciiEqualFold_sym a b : asciiEqualFold a b = asciiEqualFold b a.
Proof.
  revert b. induction a as [|c a IH]; intros [|c' b]; simpl; try done.
  by rewrite IH, Ascii.eqb_sym.
Qed.



(** C6: a message whose author id does not start with [user_] changes
    nothing in the scanner's state, whatever its text; scanning a
    transcript is scanning its client messages, and a folder gives the
    same result with the other messages taken out. *)
Theorem non_client_messages_contribute_nothing
    (ToLower : string → string) (EqualFold : string → string → bool)
    (FindPatternMatches : string → string → list string)
    (rangeProblemTypes : nat → list string)
    (rangeFoundTypes : gset string → list string) :
  (∀ st msg, HasPrefix (UserID msg) "user_" = false →
     scanMessage ToLower EqualFold FindPatternMatches rangeProblemTypes st msg = st)
  ∧ (∀ st msgs,
       foldl (scanMessage ToLower EqualFold FindPatternMatches rangeProblemTypes)
         st msgs
       = foldl (scanMessage ToLower EqualFold FindPatternMatches rangeProblemTypes)
           st (clientMessages msgs))
  ∧ (∀ files folderName,
       analyzeDialogFolder ToLower EqualFold FindPatternMatches rangeProblemTypes
         rangeFoundTypes (Some (clientOnly <$> files)) folderName
       = analyzeDialogFolder ToLower EqualFold FindPatternMatches rangeProblemTypes
           rangeFoundTypes (Some files) folderName).
Proof.
  split_and!.
  - intros st msg. apply scanMessage_not_client.
  - intros st msgs. apply scanMessages_client.
  - intros files folderName. unfold analyzeDialogFolder.
    rewrite scanFolder_clientOnly, <- list_fmap_compose.
    by replace (Name ∘ clientOnly) with Name.
Qed.

Example operator_message_ignored :
  sampleAnalyze ["refund"; "billing"]
    (Some [ {| Name := "conv_BBB-2_chat.json";
               Data := ChatMessages [operator "we made the refund"] |} ]) "BBB-2"
  = None.
Proof. vm_compute. reflexivity. Qed.

Lemma scanFolders_unlistable ToLower EqualFold FindPatternMatches
    rangeProblemTypesOf rangeFoundTypes pre e post :
  entryDir e = None →
  scanFolders ToLower EqualFold FindPatternMatches rangeProblemTypesOf
    rangeFoundTypes (pre ++ e :: post)
  = scanFolders ToLower EqualFold FindPatternMatches rangeProblemTypesOf
      rangeFoundTypes (pre ++ post).
Proof.
  intros H. unfold scanFolders. rewrite !omap_app. simpl. rewrite H.
  by destruct (negb (IsDir e)).
Qed.

(** C8: when the folder's file list cannot be read the scanner returns
    nothing, and the run goes on without the folder: the dialogs sent and
    the result of [main] are those of the root without the folder, and a
    run whose type directories were made and whose root was listed ends
    normally whatever folders cannot be listed.  A transcript that cannot
    be read or decoded leaves the types, the triggers and the count of
    scanned messages as they were, so the folder's types and triggers, and
    whether it gives a result at all, are those of the folder's other
    files. *)
Theorem unreadable_parts_are_skipped
    (ToLower : string → string) (EqualFold : string → string → bool)
    (FindPatternMatches : string → string → list string)
    (rangeProblemTypes : nat → list string)
    (rangeFoundTypes : gset string → list string) :
  (∀ folderName,
     analyzeDialogFolder ToLower EqualFold FindPatternMatches rangeProblemTypes
       rangeFoundTypes None folderName = None)
  ∧ (∀ folderName st f, unreadable f →
       findings (scanFile ToLower EqualFold FindPatternMatches rangeProblemTypes
                   folderName st f) = findings st)
  ∧ (∀ folderName pre f post, unreadable f →
       (λ d, (Types d, Triggers d)) <$>
         analyzeDialogFolder ToLower EqualFold FindPatternMatches rangeProblemTypes
           rangeFoundTypes (Some (pre ++ f :: post)) folderName
       = (λ d, (Types d, Triggers d)) <$>
           analyzeDialogFolder ToLower EqualFold FindPatternMatches
             rangeProblemTypes rangeFoundTypes (Some (pre ++ post)) folderName)
  ∧ (∀ (mkdirTypeDir : string → bool)
       (mkdirDialogDir : string → string → bool) (rangeTypeDirs : list string)
       (rangeProblemTypesOf : string → nat → list string)
       (arrival : list ProblematicDialog → list ProblematicDialog)
       (pre : list RootEntry) (e : RootEntry) (post : list RootEntry),
       entryDir e = None →
       scanFolders ToLower EqualFold FindPatternMatches rangeProblemTypesOf
         rangeFoundTypes (pre ++ e :: post)
       = scanFolders ToLower EqualFold FindPatternMatches rangeProblemTypesOf
           rangeFoundTypes (pre ++ post)
       ∧ main ToLower EqualFold FindPatternMatches mkdirTypeDir mkdirDialogDir
           rangeTypeDirs rangeProblemTypesOf rangeFoundTypes arrival
           (Some (pre ++ e :: post))
         = main ToLower EqualFold FindPatternMatches mkdirTypeDir
             mkdirDialogDir rangeTypeDirs rangeProblemTypesOf rangeFoundTypes
             arrival (Some (pre ++ post)))
  ∧ (∀ (mkdirTypeDir : string → bool)
       (mkdirDialogDir : string → string → bool) (rangeTypeDirs : list string)
       (rangeProblemTypesOf : string → nat → list string)
       (arrival : list ProblematicDialog → list ProblematicDialog)
       (folders : list RootEntry),
       Forall (λ typeKey, mkdirTypeDir typeKey = true) rangeTypeDirs →
       main ToLower EqualFold FindPatternMatches mkdirTypeDir mkdirDialogDir
         rangeTypeDirs rangeProblemTypesOf rangeFoundTypes arrival
         (Some folders)
       = Finished
           (aggregate mkdirDialogDir
              (arrival
                 (scanFolders ToLower EqualFold FindPatternMatches
                    rangeProblemTypesOf rangeFoundTypes
                    (filter (λ e, entryDir e ≠ None) folders))))).
Proof.
  split_and!.
  - done.
  - intros folderName st f. apply scanFile_unreadable.
  - intros folderName pre f post Hf. unfold analyzeDialogFolder.
    pose proof (scanFolder_unreadable ToLower EqualFold FindPatternMatches
                  rangeProblemTypes folderName pre f post Hf) as H.
    unfold findings in H. injection H as -> -> _.
    by destruct (0 <? _).
  - intros mkdirTypeDir mkdirDialogDir rangeTypeDirs rangeProblemTypesOf arrival
      pre e post He.
    assert (scanFolders ToLower EqualFold FindPatternMatches rangeProblemTypesOf
              rangeFoundTypes (pre ++ e :: post)
            = scanFolders ToLower EqualFold FindPatternMatches
                rangeProblemTypesOf rangeFoundTypes (pre ++ post)) as H
      by by apply scanFolders_unlistable.
    split; [exact H|]. unfold main. by rewrite H.
  - intros mkdirTypeDir mkdirDialogDir rangeTypeDirs rangeProblemTypesOf arrival
      folders Hok.
    unfold main. destruct (find _ rangeTypeDirs) as [k|] eqn:E.
    { apply find_some in E as [Hk E]. rewrite Forall_forall in Hok.
      apply list_elem_of_In, Hok in Hk. by rewrite Hk in E. }
    do 3 f_equal. clear E Hok.
    induction folders as [|e folders IH]; [done|].
    destruct (entryDir e) as [files|] eqn:He.
    + rewrite filter_cons_True by by rewrite He.
      change (e :: folders) with ([e] ++ folders).
      change (e :: filter (λ e, entryDir e ≠ None) folders)
        with ([e] ++ filter (λ e, entryDir e ≠ None) folders).
      unfold scanFolders in *. by rewrite !omap_app, IH.
    + rewrite filter_cons_False by (rewrite He; by intros H).
      rewrite (scanFolders_unlistable _ _ _ _ _ [] e folders He). exact IH.
Qed.

(** The third folder of the example cannot be listed; the run ends
    normally with the counts of the other two. *)
Example unlistable_folder_skipped :
  entryDir <$> sampleRoot !! 3 = Some None
  ∧ sampleMain (λ _ _, true) id (Some sampleRoot)
    = sampleMain (λ _ _, true) id (Some (take 3 sampleRoot))
  ∧ ∃ agg, sampleMain (λ _ _, true) id (Some sampleRoot) = Finished agg
           ∧ stats agg !! "billing" = Some 2.
Proof.
  split_and!; [reflexivity|reflexivity|].
  eexists. split; [reflexivity|]. vm_compute. reflexivity.
Qed.

Example broken_transcript_skipped :
  sampleAnalyze ["refund"; "billing"]
    (Some ({| Name := "conv_AAA-1_old_chat.json"; Data := UnmarshalError |}
           :: sampleFolder)) "AAA-1"
  = Some {| FolderName := "AAA-1"; ID := "AAA-1";
            Types := ["billing"; "refund"];
            Files := ["conv_AAA-1_old_chat.json"; "conv_AAA-1_chat.json";
                      "conv_AAA-1_info.json"];
            Triggers := ["Refund"] |}.
Proof. vm_compute. reflexivity. Qed.

(** *** The dialog ID *)

Lemma FindStringSubmatch_shape s :
  convFilePattern_FindStringSubmatch s = []
  ∨ ∃ g, convFilePattern_FindStringSubmatch s = ["conv_" +:+ g +:+ "_"; g].
Proof.
  induction s as [|c s IH]; simpl.
  - destruct (convFilePattern_at EmptyString); eauto.
  - destruct (convFilePattern_at (String c s)); eauto.
Qed.

Lemma extractID_lookup fileName folderName :
  extractID fileName folderName
  = default folderName (convFilePattern_FindStringSubmatch fileName !! 1).
Proof.
  unfold extractID.
  by destruct (FindStringSubmatch_shape fileName) as [-> | [g ->]].
Qed.

(** C1, as stated, fails: with two transcripts whose names give [AAA-1]
    and then [BBB-2], the first successful extraction is [AAA-1] but the
    scanner records [BBB-2]. *)
Lemma first_extraction_does_not_win :
  ID <$> sampleAnalyze ["refund"; "billing"] (Some twoTranscripts) "AAA-1"
    = Some "BBB-2"
  ∧ firstExtractedID twoTranscripts "AAA-1" = "AAA-1".
Proof. split; vm_compute; reflexivity. Qed.

(** The folder name replaces an ID that an earlier transcript gave. *)
Example folder_name_after_extraction :
  ID <$> sampleAnalyze ["refund"; "billing"]
           (Some [ {| Name := "conv_AAA-1_chat.json";
                      Data := ChatMessages [client "refund please"] |};
                   {| Name := "notes_chat.json"; Data := ReadFileError |} ])
           "folder-7"
  = Some "folder-7".
Proof. vm_compute. reflexivity. Qed.

(** C1, amended: the dialog ID of a result is decided by the last
    transcript file of the listing alone (read or decoded or not): the ID
    that the pattern extracts from its name, and the folder name when the
    pattern does not match that name. *)
Theorem dialog_id_from_last_transcript
    (ToLower : string → string) (EqualFold : string → string → bool)
    (FindPatternMatches : string → string → list string)
    (rangeProblemTypes : nat → list string)
    (rangeFoundTypes : gset string → list string)
    (files : list DirFile) (folderName : string) (d : ProblematicDialog) :
  analyzeDialogFolder ToLower EqualFold FindPatternMatches rangeProblemTypes
    rangeFoundTypes (Some files) folderName = Some d →
  ∃ f, last (filter isChat files) = Some f
       ∧ ID d = default folderName
                  (convFilePattern_FindStringSubmatch (Name f) !! 1).
Proof.
  unfold analyzeDialogFolder, scanFolder.
  destruct (0 <? _) eqn:Hsize; [|done]. intros [= <-]. simpl.
  rewrite scanFiles_dialogID.
  destruct (last (filter isChat files)) as [f|] eqn:Hlast.
  - exists f. by rewrite extractID_lookup.
  - apply last_None in Hlast.
    rewrite scanFiles_no_chat in Hsize by done. done.
Qed.

(** The theorem at the folder with two transcripts. *)
Lemma dialog_id_from_last_transcript_witness :
  sampleAnalyze ["refund"; "billing"] (Some twoTranscripts) "AAA-1"
  = Some twoTranscriptsDialog
  ∧ ∃ f, last (filter isChat twoTranscripts) = Some f
         ∧ ID twoTranscriptsDialog
           = default "AAA-1" (convFilePattern_FindStringSubmatch (Name f) !! 1).
Proof.
  assert (sampleAnalyze ["refund"; "billing"] (Some twoTranscripts) "AAA-1"
          = Some twoTranscriptsDialog) as H by (vm_compute; reflexivity).
  split; [exact H|].
  exact (dialog_id_from_last_transcript asciiToLower asciiEqualFold sampleMatches
           (λ _, ["refund"; "billing"]) (λ s, elements s) twoTranscripts "AAA-1"
           _ H).
Defined.

(** *** Absent results and the order of the types *)

Lemma sort_Strings_sorted l : StronglySorted String.le (sort_Strings l).
Proof. apply StronglySorted_merge_sort; apply _. Qed.

Lemma sort_Strings_perm l : sort_Strings l ≡ₚ l.
Proof. apply merge_sort_Permutation. Qed.

(** Sorting does not depend on the order in which the keys come. *)
Lemma sort_Strings_order l1 l2 : l1 ≡ₚ l2 → sort_Strings l1 = sort_Strings l2.
Proof.
  intros H. apply (StronglySorted_unique String.le);
    [apply sort_Strings_sorted|apply sort_Strings_sorted|].
  by rewrite !sort_Strings_perm.
Qed.

(** C5: the scanner returns nothing exactly when no configured type
    matched a client message of a transcript of the folder that was read
    and decoded; otherwise the types of the result are the matched types,
    each once, ascending in the byte order of the keys, and they are the
    same whatever the orders in which the maps are visited. *)
Theorem absent_iff_no_match_and_types_sorted
    (ToLower : string → string) (EqualFold : string → string → bool)
    (FindPatternMatches : string → string → list string)
    (problemTypes : list string)
    (rangeProblemTypes rangeProblemTypes' : nat → list string)
    (rangeFoundTypes rangeFoundTypes' : gset string → list string)
    (dir : option (list DirFile)) (folderName : string) :
  (∀ n, rangeProblemTypes n ≡ₚ problemTypes) →
  (∀ n, rangeProblemTypes' n ≡ₚ problemTypes) →
  (∀ s, rangeFoundTypes s ≡ₚ elements s) →
  (∀ s, rangeFoundTypes' s ≡ₚ elements s) →
  (analyzeDialogFolder ToLower EqualFold FindPatternMatches rangeProblemTypes
     rangeFoundTypes dir folderName = None
   ↔ ∀ files typeKey, dir = Some files →
       ¬ folderMatches ToLower FindPatternMatches problemTypes files typeKey)
  ∧ (∀ d,
       analyzeDialogFolder ToLower EqualFold FindPatternMatches rangeProblemTypes
         rangeFoundTypes dir folderName = Some d →
       StronglySorted String.le (Types d) ∧ NoDup (Types d)
       ∧ ∃ files, dir = Some files
           ∧ ∀ typeKey, typeKey ∈ Types d ↔
               folderMatches ToLower FindPatternMatches problemTypes files typeKey)
  ∧ Types <$> analyzeDialogFolder ToLower EqualFold FindPatternMatches
                rangeProblemTypes rangeFoundTypes dir folderName
    = Types <$> analyzeDialogFolder ToLower EqualFold FindPatternMatches
                  rangeProblemTypes' rangeFoundTypes' dir folderName.
Proof.
  intros Hr Hr' Hf Hf'.
  destruct dir as [files|]; [|by split_and!].
  unfold analyzeDialogFolder.
  pose proof (scanFolder_types ToLower EqualFold FindPatternMatches
                rangeProblemTypes problemTypes Hr folderName files) as Hin.
  pose proof (scanFolder_types ToLower EqualFold FindPatternMatches
                rangeProblemTypes' problemTypes Hr' folderName files) as Hin'.
  set (st := scanFolder ToLower EqualFold FindPatternMatches rangeProblemTypes
               folderName files) in *.
  set (st' := scanFolder ToLower EqualFold FindPatternMatches rangeProblemTypes'
                folderName files) in *.
  assert (foundTypes st' = foundTypes st) as Heq.
  { apply set_eq. intros k. by rewrite Hin, Hin'. }
  rewrite Heq. clearbody st st'. clear Hin' Heq.
  split_and!.
  - destruct (0 <? size (foundTypes st)) eqn:Hsize.
    + apply Nat.ltb_lt in Hsize.
      destruct (set_choose (foundTypes st)) as [k Hk].
      { apply size_non_empty_iff. lia. }
      split; [done|]. intros H. apply Hin in Hk. by destruct (H files k).
    + apply Nat.ltb_ge in Hsize. split; [|done].
      intros _ files' k [= <-] Hk. apply Hin in Hk.
      assert (size (foundTypes st) ≠ 0); [|lia].
      apply size_non_empty_iff. set_solver.
  - intros d. destruct (0 <? _); [|done]. intros [= <-]. simpl. split_and!.
    + apply sort_Strings_sorted.
    + rewrite sort_Strings_perm, Hf. apply NoDup_elements.
    + exists files. split; [done|]. intros k.
      by rewrite sort_Strings_perm, Hf, elem_of_elements.
  - destruct (0 <? _); [|done]. simpl. f_equal.
    apply sort_Strings_order. by rewrite Hf, Hf'.
Qed.

(** The theorem at the folder of the example, for two pairs of visiting
    orders. *)
Lemma absent_iff_no_match_witness :
  (∀ n, (λ _ : nat, ["refund"; "billing"]) n ≡ₚ sampleTypes.*1)
  ∧ (∀ n, (λ _ : nat, ["billing"; "refund"]) n ≡ₚ sampleTypes.*1)
  ∧ (∀ s : gset string, elements s ≡ₚ elements s)
  ∧ (∀ s : gset string, reverse (elements s) ≡ₚ elements s)
  ∧ Types <$> sampleAnalyze ["refund"; "billing"] (Some sampleFolder) "AAA-1"
    = Types <$> analyzeDialogFolder asciiToLower asciiEqualFold sampleMatches
                  (λ _, ["billing"; "refund"]) (λ s, reverse (elements s))
                  (Some sampleFolder) "AAA-1".
Proof.
  assert (∀ n, (λ _ : nat, ["refund"; "billing"]) n ≡ₚ sampleTypes.*1) as H1
    by (intros _; apply perm_swap).
  assert (∀ n, (λ _ : nat, ["billing"; "refund"]) n ≡ₚ sampleTypes.*1) as H2
    by (intros _; reflexivity).
  assert (∀ s : gset string, elements s ≡ₚ elements s) as H3 by reflexivity.
  assert (∀ s : gset string, reverse (elements s) ≡ₚ elements s) as H4
    by (intros s; apply reverse_Permutation).
  split_and!; [exact H1|exact H2|exact H3|exact H4|].
  exact (proj2 (proj2 (absent_iff_no_match_and_types_sorted
    asciiToLower asciiEqualFold sampleMatches (sampleTypes.*1)
    (λ _, ["refund"; "billing"]) (λ _, ["billing"; "refund"])
    (λ s, elements s) (λ s, reverse (elements s))
    (Some sampleFolder) "AAA-1" H1 H2 H3 H4))).
Defined.

(** ** Facts about the aggregation *)

Lemma sumCounts_insert_fresh (m : gmap string nat) k v :
  m !! k = None → sumCounts (<[k:=v]> m) = v + sumCounts m.
Proof.
  intros H. unfold sumCounts. apply map_fold_insert_L; [intros; lia|done].
Qed.

Lemma sumCounts_bump (m : gmap string nat) k :
  sumCounts (<[k := S (m !!! k)]> m) = S (sumCounts m).
Proof.
  rewrite lookup_total_alt. destruct (m !! k) as [v|] eqn:E; simpl.
  - rewrite <- insert_delete_eq.
    rewrite sumCounts_insert_fresh by apply lookup_delete_eq.
    unfold sumCounts at 2.
    rewrite (map_fold_delete_L _ _ k v m); [|intros; lia|done]. done.
  - by rewrite sumCounts_insert_fresh.
Qed.

Lemma sum_at_least_length {A} (f : A → nat) (l : list A) :
  Forall (λ x, 1 ≤ f x) l →
  length l ≤ sum_list_with f l
  ∧ (sum_list_with f l = length l ↔ Forall (λ x, f x ≤ 1) l).
Proof.
  induction 1 as [|x l Hx Hl [IH1 IH2]]; simpl.
  - split; [lia|]. split; [constructor|done].
  - split; [lia|]. rewrite Forall_cons. split.
    + intros H. assert (f x = 1) by lia. split; [lia|]. apply IH2. lia.
    + intros [Hx1 Hl1]. apply IH2 in Hl1. lia.
Qed.

Section AggregateFacts.

Variable mkdirDialogDir : string → string → bool.

Local Abbreviation aggT := (aggregateType mkdirDialogDir).
Local Abbreviation aggD := (aggregateDialog mkdirDialogDir).

Lemma aggregateType_stats dialog agg typeKey :
  stats (aggT dialog agg typeKey)
  = <[typeKey := S (stats agg !!! typeKey)]> (stats agg).
Proof. unfold aggregateType. by destruct (mkdirDialogDir _ _). Qed.

Lemma aggregateType_failed dialog agg typeKey :
  mkdirDialogDir typeKey (FolderName dialog) = false →
  allDialogs (aggT dialog agg typeKey) = allDialogs agg.
Proof. intros H. unfold aggregateType. by rewrite H. Qed.

Lemma aggregateTypes_sum dialog keys agg :
  sumCounts (stats (foldl (aggT dialog) agg keys))
  = sumCounts (stats agg) + length keys.
Proof.
  revert agg. induction keys as [|k keys IH]; intros agg; simpl; [lia|].
  rewrite IH, aggregateType_stats, sumCounts_bump. lia.
Qed.

Lemma aggregateDialogs_sum dialogs agg :
  sumCounts (stats (foldl aggD agg dialogs))
  = sumCounts (stats agg) + sum_list_with (λ d, length (Types d)) dialogs.
Proof.
  revert agg. induction dialogs as [|d dialogs IH]; intros agg; simpl; [lia|].
  rewrite IH. unfold aggregateDialog. rewrite aggregateTypes_sum. lia.
Qed.

Lemma aggregate_sum dialogs :
  sumCounts (stats (aggregate mkdirDialogDir dialogs))
  = sum_list_with (λ d, length (Types d)) dialogs.
Proof. unfold aggregate. by rewrite aggregateDialogs_sum. Qed.

Lemma aggregateType_listed dialog agg typeKey :
  listed agg → listed (aggT dialog agg typeKey).
Proof.
  intros H k. rewrite aggregateType_stats. unfold aggregateType.
  specialize (H k).
  destruct (mkdirDialogDir _ _); simpl;
    destruct (decide (typeKey = k)) as [->|Hne];
    rewrite ?lookup_total_insert_eq, ?lookup_total_insert_ne by done;
    rewrite ?length_app; simpl; lia.
Qed.

Lemma aggregateDialog_listed agg dialog : listed agg → listed (aggD agg dialog).
Proof.
  unfold aggregateDialog. generalize (Types dialog) as keys.
  intros keys. revert agg.
  induction keys as [|k keys IH]; intros agg H; [done|].
  simpl. by apply IH, aggregateType_listed.
Qed.

Lemma aggregate_listed dialogs : listed (aggregate mkdirDialogDir dialogs).
Proof.
  unfold aggregate.
  assert (listed emptyAggregate) as H.
  { intros k. simpl. by rewrite !lookup_total_empty. }
  revert H. generalize emptyAggregate as agg.
  induction dialogs as [|d dialogs IH]; intros agg H; [done|].
  simpl. by apply IH, aggregateDialog_listed.
Qed.

End AggregateFacts.

Section MainFacts.

Variable ToLower : string → string.
Variable EqualFold : string → string → bool.
Variable FindPatternMatches : string → string → list string.
Variable rangeProblemTypesOf : string → nat → list string.
Variable rangeFoundTypes : gset string → list string.
Hypothesis range_found : ∀ s, rangeFoundTypes s ≡ₚ elements s.

Local Abbreviation scanDirs :=
  (scanFolders ToLower EqualFold FindPatternMatches rangeProblemTypesOf
     rangeFoundTypes).

Lemma analyzeDialogFolder_Some rangeProblemTypes dir folderName d :
  analyzeDialogFolder ToLower EqualFold FindPatternMatches rangeProblemTypes
    rangeFoundTypes dir folderName = Some d →
  1 ≤ length (Types d) ∧ FolderName d = folderName.
Proof.
  destruct dir as [files|]; [|done]. unfold analyzeDialogFolder.
  destruct (0 <? _) eqn:Hsize; [|done]. intros [= <-]. simpl.
  split; [|done]. apply Nat.ltb_lt in Hsize.
  by rewrite sort_Strings_perm, range_found.
Qed.

Lemma scanFolders_types folders :
  Forall (λ d, 1 ≤ length (Types d)) (scanDirs folders).
Proof.
  induction folders as [|e folders IH]; [constructor|].
  unfold scanFolders. simpl. destruct (negb (IsDir e)); [exact IH|].
  destruct (analyzeDialogFolder _ _ _ _ _ _ _) as [d|] eqn:E; [|exact IH].
  constructor; [|exact IH]. by apply analyzeDialogFolder_Some in E as [? _].
Qed.

Lemma scanFolders_names folders :
  FolderName <$> scanDirs folders `sublist_of` entryName <$> folders.
Proof.
  induction folders as [|e folders IH]; [constructor|].
  unfold scanFolders. simpl.
  destruct (negb (IsDir e)); [by apply sublist_cons|].
  destruct (analyzeDialogFolder _ _ _ _ _ _ _) as [d|] eqn:E;
    [|by apply sublist_cons].
  apply analyzeDialogFolder_Some in E as [_ <-]. simpl.
  by apply sublist_skip.
Qed.

Lemma scanFolders_skip pre e post :
  IsDir e = false → scanDirs (pre ++ e :: post) = scanDirs (pre ++ post).
Proof.
  intros H. unfold scanFolders. rewrite !omap_app. simpl. by rewrite H.
Qed.

End MainFacts.

(** ** The properties of [main] *)

(** C7: after the aggregation the sum of the counts over all types is at
    least the number of dialogs received, which are distinct, and it is
    equal to that number exactly when no dialog has more than one type. *)
Theorem counts_sum_at_least_dialogs
    (ToLower : string → string) (EqualFold : string → string → bool)
    (FindPatternMatches : string → string → list string)
    (mkdirTypeDir : string → bool) (mkdirDialogDir : string → string → bool)
    (rangeTypeDirs : list string)
    (rangeProblemTypesOf : string → nat → list string)
    (rangeFoundTypes : gset string → list string)
    (arrival : list ProblematicDialog → list ProblematicDialog)
    (folders : list RootEntry) (agg : Aggregate) :
  (∀ s, rangeFoundTypes s ≡ₚ elements s) →
  (∀ l, arrival l ≡ₚ l) →
  NoDup (entryName <$> folders) →
  main ToLower EqualFold FindPatternMatches mkdirTypeDir mkdirDialogDir
    rangeTypeDirs rangeProblemTypesOf rangeFoundTypes arrival (Some folders)
  = Finished agg →
  ∃ dialogs,
    dialogs ≡ₚ scanFolders ToLower EqualFold FindPatternMatches
                 rangeProblemTypesOf rangeFoundTypes folders
    ∧ agg = aggregate mkdirDialogDir dialogs
    ∧ NoDup (FolderName <$> dialogs)
    ∧ length dialogs ≤ sumCounts (stats agg)
    ∧ (sumCounts (stats agg) = length dialogs
       ↔ Forall (λ d, length (Types d) ≤ 1) dialogs).
Proof.
  intros Hf Ha Hnames. unfold main.
  destruct (find _ rangeTypeDirs); [done|]. intros [= <-].
  set (sent := scanFolders _ _ _ _ _ folders).
  assert (Forall (λ d, 1 ≤ length (Types d)) (arrival sent)) as Htypes.
  { rewrite Ha. by apply scanFolders_types. }
  exists (arrival sent). split_and!.
  - apply Ha.
  - done.
  - rewrite Ha. eapply sublist_NoDup; [exact Hnames|].
    by apply scanFolders_names.
  - rewrite aggregate_sum. by apply sum_at_least_length.
  - rewrite aggregate_sum. by apply sum_at_least_length.
Qed.

(** The theorem at the root of the example, the dialogs being received
    in the reverse of the order of the listing. *)
Lemma counts_sum_at_least_dialogs_witness :
  (∀ s : gset string, elements s ≡ₚ elements s)
  ∧ (∀ l : list ProblematicDialog, reverse l ≡ₚ l)
  ∧ NoDup (entryName <$> sampleRoot)
  ∧ ∃ dialogs,
      dialogs ≡ₚ sampleScanFolders sampleRoot
      ∧ aggregate (λ _ _, true) (reverse (sampleScanFolders sampleRoot))
        = aggregate (λ _ _, true) dialogs
      ∧ NoDup (FolderName <$> dialogs)
      ∧ length dialogs
        ≤ sumCounts (stats (aggregate (λ _ _, true)
                              (reverse (sampleScanFolders sampleRoot))))
      ∧ (sumCounts (stats (aggregate (λ _ _, true)
                             (reverse (sampleScanFolders sampleRoot))))
         = length dialogs
         ↔ Forall (λ d, length (Types d) ≤ 1) dialogs).
Proof.
  assert (∀ s : gset string, elements s ≡ₚ elements s) as H1 by reflexivity.
  assert (∀ l : list ProblematicDialog, reverse l ≡ₚ l) as H2
    by apply reverse_Permutation.
  assert (NoDup (entryName <$> sampleRoot)) as H3
    by (apply (bool_decide_unpack _); vm_compute; reflexivity).
  split_and!; [exact H1|exact H2|exact H3|].
  exact (counts_sum_at_least_dialogs asciiToLower asciiEqualFold sampleMatches
           (λ _, true) (λ _ _, true) ["billing"; "refund"] sampleOrders
           (λ s, elements s) reverse sampleRoot _ H1 H2 H3 eq_refl).
Defined.

Example sample_counts :
  sumCounts (stats (aggregate (λ _ _, true) (sampleScanFolders sampleRoot))) = 4
  ∧ length (sampleScanFolders sampleRoot) = 2.
Proof. split; vm_compute; reflexivity. Qed.

(** C9, as stated, fails: the root of the example has the plain file
    [README.txt] among its entries, and the run still classifies the
    folders and ends with counts. *)
Lemma run_continues_past_plain_file :
  (∃ e, e ∈ sampleRoot ∧ IsDir e = false)
  ∧ ∃ agg, sampleMain (λ _ _, true) id (Some sampleRoot) = Finished agg
           ∧ stats agg !! "refund" = Some 2.
Proof.
  split.
  - eexists. split; [apply list_elem_of_here|reflexivity].
  - eexists. split; [reflexivity|]. vm_compute. reflexivity.
Qed.

(** C9, amended: a read error of the input root ends the run before any
    folder is classified, and it is the error reported unless the
    directory of a type could not be made before; an entry that is not a
    directory is passed over, and the run is the run without it. *)
Theorem root_read_error_ends_run_files_skipped
    (ToLower : string → string) (EqualFold : string → string → bool)
    (FindPatternMatches : string → string → list string)
    (mkdirTypeDir : string → bool) (mkdirDialogDir : string → string → bool)
    (rangeTypeDirs : list string)
    (rangeProblemTypesOf : string → nat → list string)
    (rangeFoundTypes : gset string → list string)
    (arrival : list ProblematicDialog → list ProblematicDialog) :
  (∀ agg,
     main ToLower EqualFold FindPatternMatches mkdirTypeDir mkdirDialogDir
       rangeTypeDirs rangeProblemTypesOf rangeFoundTypes arrival None
     ≠ Finished agg)
  ∧ (Forall (λ typeKey, mkdirTypeDir typeKey = true) rangeTypeDirs →
     main ToLower EqualFold FindPatternMatches mkdirTypeDir mkdirDialogDir
       rangeTypeDirs rangeProblemTypesOf rangeFoundTypes arrival None
     = ReadDirFailed)
  ∧ (∀ pre e post, IsDir e = false →
       main ToLower EqualFold FindPatternMatches mkdirTypeDir mkdirDialogDir
         rangeTypeDirs rangeProblemTypesOf rangeFoundTypes arrival
         (Some (pre ++ e :: post))
       = main ToLower EqualFold FindPatternMatches mkdirTypeDir mkdirDialogDir
           rangeTypeDirs rangeProblemTypesOf rangeFoundTypes arrival
           (Some (pre ++ post))).
Proof.
  unfold main. split_and!.
  - intros agg. by destruct (find _ rangeTypeDirs).
  - intros Hok. destruct (find _ rangeTypeDirs) as [k|] eqn:E; [|done].
    apply find_some in E as [Hk E]. rewrite Forall_forall in Hok.
    apply list_elem_of_In, Hok in Hk. by rewrite Hk in E.
  - intros pre e post He. by rewrite scanFolders_skip.
Qed.

(** C10: when the directory of a dialog below a type cannot be made, the
    count of the type has been raised and the dialog is not appended to
    the list of the type; so every list is at most as long as the count
    of its type, and it can be shorter. *)
Theorem count_raised_before_dialog_directory
    (mkdirDialogDir : string → string → bool) :
  (∀ dialog agg typeKey,
     mkdirDialogDir typeKey (FolderName dialog) = false →
     stats (aggregateType mkdirDialogDir dialog agg typeKey) !!! typeKey
     = S (stats agg !!! typeKey)
     ∧ allDialogs (aggregateType mkdirDialogDir dialog agg typeKey)
       = allDialogs agg)
  ∧ (∀ dialogs typeKey,
       length (allDialogs (aggregate mkdirDialogDir dialogs) !!! typeKey)
       ≤ stats (aggregate mkdirDialogDir dialogs) !!! typeKey)
  ∧ (∃ failing dialogs typeKey,
       length (allDialogs (aggregate failing dialogs) !!! typeKey)
       < stats (aggregate failing dialogs) !!! typeKey).
Proof.
  split_and!.
  - intros dialog agg typeKey H. split.
    + by rewrite aggregateType_stats, lookup_total_insert_eq.
    + by apply aggregateType_failed.
  - intros dialogs. apply aggregate_listed.
  - exists (λ _ _, false), [sampleDialog], "refund". vm_compute. lia.
Qed.

(** ** Facts about [printStatistics] *)

Lemma toItems_pairs l :
  (λ item, (TypeKey item, Count item)) <$> toItems l = l.
Proof.
  unfold toItems. induction l as [|[k c] l IH]; [done|].
  rewrite !fmap_cons. by rewrite IH.
Qed.

Lemma Sorted_weaken {A} (R1 R2 : relation A) l :
  (∀ x y, R1 x y → R2 x y) → Sorted R1 l → Sorted R2 l.
Proof.
  intros H. induction 1 as [|x l Hl IH Hhd]; constructor; [exact IH|].
  destruct Hhd; constructor. by apply H.
Qed.

Lemma lessCount_false a b : lessCount b a = false ↔ Count b ≤ Count a.
Proof. unfold lessCount. apply Nat.ltb_ge. Qed.

Section InsertionSort.

Context {A : Type} (less : A → A → bool).
Hypothesis less_asym : ∀ a b, less a b = true → less b a = false.

Lemma sinkLeft_perm x l : sinkLeft less x l ≡ₚ x :: l.
Proof.
  induction l as [|p ps IH]; simpl; [done|].
  destruct (less x p); [|done]. rewrite IH. apply perm_swap.
Qed.

Lemma insertionSort_perm l : insertionSort less l ≡ₚ l.
Proof.
  unfold insertionSort. rewrite reverse_Permutation.
  assert (∀ acc, foldl (λ revPrefix x, sinkLeft less x revPrefix) acc l
                 ≡ₚ l ++ acc) as H.
  { induction l as [|x l IH]; intros acc; simpl; [done|].
    rewrite IH, sinkLeft_perm. by rewrite Permutation_middle. }
  by rewrite H, app_nil_r.
Qed.

Lemma sinkLeft_sorted x l :
  Sorted (λ a b, less a b = false) l →
  Sorted (λ a b, less a b = false) (sinkLeft less x l).
Proof.
  induction 1 as [|p ps Hs IH Hhd]; simpl.
  - repeat constructor.
  - destruct (less x p) eqn:E.
    + constructor; [exact IH|].
      destruct Hhd as [|p' ps' Hp]; simpl.
      * constructor. by apply less_asym.
      * destruct (less x p'); constructor; [done|by apply less_asym].
    + constructor; [by constructor|by constructor].
Qed.

Lemma insertionSort_sorted l :
  Sorted (λ a b, less b a = false) (insertionSort less l).
Proof.
  unfold insertionSort.
  apply (Sorted_reverse (λ a b, less a b = false)).
  assert (∀ acc, Sorted (λ a b, less a b = false) acc →
            Sorted (λ a b, less a b = false)
              (foldl (λ revPrefix x, sinkLeft less x revPrefix) acc l)) as H.
  { induction l as [|x l IH]; intros acc Hacc; simpl; [done|].
    by apply IH, sinkLeft_sorted. }
  apply H. constructor.
Qed.

End InsertionSort.

Lemma lessCount_asym a b : lessCount a b = true → lessCount b a = false.
Proof. unfold lessCount. rewrite Nat.ltb_lt, Nat.ltb_ge. lia. Qed.

Lemma rangeDescending_perm {V} (m : gmap string V) :
  rangeDescending m ≡ₚ map_to_list m.
Proof. apply merge_sort_Permutation. Qed.

(** C3, as stated, fails: both types of the example are counted twice,
    [billing] first, and a loop over [stats] that visits [refund] first
    makes the ranking start with [refund], while the ranking that keeps
    the order of first counting on ties starts with [billing]. *)
Lemma ranking_ties_follow_the_visiting_order :
  rangeDescending (stats sampleAggregate) ≡ₚ map_to_list (stats sampleAggregate)
  ∧ firstCounted (sampleScanFolders sampleRoot) = ["billing"; "refund"]
  ∧ statsList insertionSort rangeDescending (stats sampleAggregate)
    = [ {| TypeKey := "refund"; Count := 2 |};
        {| TypeKey := "billing"; Count := 2 |} ]
  ∧ stableRanking (sampleScanFolders sampleRoot) (stats sampleAggregate)
    = [ {| TypeKey := "billing"; Count := 2 |};
        {| TypeKey := "refund"; Count := 2 |} ].
Proof.
  split; [apply rangeDescending_perm|].
  split_and!; vm_compute; reflexivity.
Qed.

(** C3, amended: the ranking lists every type of [stats] once with its
    count, and no entry has a smaller count than an entry after it; the
    order of types with equal counts is the one that the loop over the map
    and [sort.Slice] happen to give. *)
Theorem ranking_descending_by_count
    (sortSlice : (StatsItem → StatsItem → bool) → list StatsItem → list StatsItem)
    (rangeStats : gmap string nat → list (string * nat))
    (stats : gmap string nat) :
  (∀ l, sortSlice lessCount l ≡ₚ l) →
  (∀ l, Sorted (λ a b, lessCount b a = false) (sortSlice lessCount l)) →
  rangeStats stats ≡ₚ map_to_list stats →
  StronglySorted (λ a b, Count b ≤ Count a) (statsList sortSlice rangeStats stats)
  ∧ (λ item, (TypeKey item, Count item)) <$> statsList sortSlice rangeStats stats
    ≡ₚ map_to_list stats.
Proof.
  intros Hperm Hsorted Hrange. unfold statsList. split.
  - apply Sorted_StronglySorted.
    + intros a b c. lia.
    + eapply Sorted_weaken; [|apply Hsorted]. intros a b. apply lessCount_false.
  - by rewrite Hperm, toItems_pairs.
Qed.

(** The theorem at the counts of the example, sorted by insertion. *)
Lemma ranking_descending_by_count_witness :
  (∀ l, insertionSort lessCount l ≡ₚ l)
  ∧ (∀ l, Sorted (λ a b, lessCount b a = false) (insertionSort lessCount l))
  ∧ rangeDescending (stats sampleAggregate) ≡ₚ map_to_list (stats sampleAggregate)
  ∧ StronglySorted (λ a b, Count b ≤ Count a)
      (statsList insertionSort rangeDescending (stats sampleAggregate))
  ∧ (λ item, (TypeKey item, Count item))
      <$> statsList insertionSort rangeDescending (stats sampleAggregate)
    ≡ₚ map_to_list (stats sampleAggregate).
Proof.
  assert (∀ l, insertionSort lessCount l ≡ₚ l) as H1
    by apply insertionSort_perm.
  assert (∀ l, Sorted (λ a b, lessCount b a = false) (insertionSort lessCount l))
    as H2 by apply (insertionSort_sorted lessCount lessCount_asym).
  assert (rangeDescending (stats sampleAggregate)
          ≡ₚ map_to_list (stats sampleAggregate)) as H3
    by apply rangeDescending_perm.
  split_and!; [exact H1|exact H2|exact H3| |];
    apply (ranking_descending_by_count insertionSort rangeDescending
             (stats sampleAggregate) H1 H2 H3).
Defined.

(** *** The trigger counts *)

Lemma countTrigger_lookup (acc : gmap string nat) t k :
  countTrigger acc t !!! k = acc !!! k + (if decide (t = k) then 1 else 0).
Proof.
  unfold countTrigger. case_decide as H.
  - subst. rewrite lookup_total_insert_eq. lia.
  - rewrite lookup_total_insert_ne by done. lia.
Qed.

Lemma countTriggers_lookup triggers (acc : gmap string nat) k :
  foldl countTrigger acc triggers !!! k = acc !!! k + occurrences k triggers.
Proof.
  unfold occurrences. revert acc.
  induction triggers as [|t triggers IH]; intros acc; simpl; [lia|].
  rewrite IH, countTrigger_lookup, filter_cons.
  repeat case_decide; simpl; lia.
Qed.

Lemma countDialogs_lookup (dialogs : list ProblematicDialog)
    (acc : gmap string nat) k :
  foldl (λ acc dialog, foldl countTrigger acc (Triggers dialog)) acc dialogs !!! k
  = acc !!! k + sum_list_with (λ d, occurrences k (Triggers d)) dialogs.
Proof.
  revert acc. induction dialogs as [|d dialogs IH]; intros acc; simpl; [lia|].
  rewrite IH, countTriggers_lookup. lia.
Qed.

Lemma countEntries_lookup (entries : list (string * list ProblematicDialog))
    (acc : gmap string nat) k :
  foldl (λ acc entry,
           foldl (λ acc dialog, foldl countTrigger acc (Triggers dialog))
                 acc entry.2) acc entries !!! k
  = acc !!! k
    + sum_list_with
        (λ entry, sum_list_with (λ d, occurrences k (Triggers d)) entry.2)
        entries.
Proof.
  revert acc. induction entries as [|e entries IH]; intros acc; simpl; [lia|].
  rewrite IH, countDialogs_lookup. lia.
Qed.

(** C2, as stated, fails: in the example the dialog of [AAA-1] records
    [Refund] and the dialog of [BBB-2] records [refund]; the two strings
    are equal up to case, and each has a counter of its own. *)
Lemma trigger_counts_keep_the_casing :
  Triggers <$> sampleScanFolders sampleRoot = [["Refund"]; ["refund"]]
  ∧ asciiEqualFold "Refund" "refund" = true
  ∧ triggerStats rangeDescending (allDialogs sampleAggregate) !! "Refund" = Some 2
  ∧ triggerStats rangeDescending (allDialogs sampleAggregate) !! "refund" = Some 2.
Proof. split_and!; vm_compute; reflexivity. Qed.

(** C2, amended: the trigger counts are keyed by the trigger string as it
    was recorded; the count of a string is the number of times this very
    string stands in the trigger lists of the dialogs of [allDialogs], a
    dialog being taken once for each type under which it is listed. *)
Theorem trigger_counts_keyed_by_recorded_string
    (rangeAllDialogs :
       gmap string (list ProblematicDialog) →
       list (string * list ProblematicDialog))
    (allDialogs : gmap string (list ProblematicDialog)) (trigger : string) :
  rangeAllDialogs allDialogs ≡ₚ map_to_list allDialogs →
  triggerStats rangeAllDialogs allDialogs !!! trigger
  = sum_list_with
      (λ entry, sum_list_with (λ d, occurrences trigger (Triggers d)) entry.2)
      (map_to_list allDialogs).
Proof.
  intros H. unfold triggerStats.
  by rewrite countEntries_lookup, lookup_total_empty, H.
Qed.

(** The theorem at the dialogs of the example. *)
Lemma trigger_counts_keyed_witness :
  rangeDescending (allDialogs sampleAggregate)
    ≡ₚ map_to_list (allDialogs sampleAggregate)
  ∧ triggerStats rangeDescending (allDialogs sampleAggregate) !!! "Refund"
    = sum_list_with
        (λ entry, sum_list_with (λ d, occurrences "Refund" (Triggers d)) entry.2)
        (map_to_list (allDialogs sampleAggregate)).
Proof.
  assert (rangeDescending (allDialogs sampleAggregate)
          ≡ₚ map_to_list (allDialogs sampleAggregate)) as H
    by apply rangeDescending_perm.
  split; [exact H|].
  exact (trigger_counts_keyed_by_recorded_string rangeDescending
           (allDialogs sampleAggregate) "Refund" H).
Defined.

(** *** The printed total *)

Lemma foldl_Count_sum items n :
  foldl (λ t item, t + Count item) n items = n + sum_list_with Count items.
Proof.
  revert n. induction items as [|item items IH]; intros n; simpl; [lia|].
  rewrite IH. lia.
Qed.

Lemma sumCounts_map_to_list (stats : gmap string nat) :
  sumCounts stats = sum_list_with snd (map_to_list stats).
Proof.
  unfold sumCounts. rewrite map_fold_foldr.
  induction (map_to_list stats) as [|[k c] l IH]; [done|].
  simpl. by rewrite IH.
Qed.

Lemma sum_Count_toItems l : sum_list_with Count (toItems l) = sum_list_with snd l.
Proof.
  unfold toItems. induction l as [|[k c] l IH]; [done|].
  rewrite fmap_cons. simpl. by rewrite IH.
Qed.

(** The number that [printStatistics] prints as the total of dialogs is
    the sum of the counts. *)
Lemma total_is_sumCounts
    (sortSlice : (StatsItem → StatsItem → bool) → list StatsItem → list StatsItem)
    (rangeStats : gmap string nat → list (string * nat))
    (stats : gmap string nat) :
  (∀ l, sortSlice lessCount l ≡ₚ l) →
  rangeStats stats ≡ₚ map_to_list stats →
  total sortSlice rangeStats stats = sumCounts stats.
Proof.
  intros Hperm Hrange. unfold total, statsList.
  by rewrite foldl_Count_sum, Hperm, sum_Count_toItems, Hrange,
    sumCounts_map_to_list.
Qed.


(** ** More about the aggregation *)

Lemma occurrences_cons k key keys :
  occurrences k (key :: keys)
  = (if decide (key = k) then 1 else 0) + occurrences k keys.
Proof. unfold occurrences. rewrite filter_cons. by case_decide. Qed.

Lemma occurrences_app k l1 l2 :
  occurrences k (l1 ++ l2) = occurrences k l1 + occurrences k l2.
Proof. unfold occurrences. by rewrite filter_app, length_app. Qed.

Lemma occurrences_perm k l1 l2 : l1 ≡ₚ l2 → occurrences k l1 = occurrences k l2.
Proof. unfold occurrences. by intros ->. Qed.

Lemma occurrences_zero k keys : occurrences k keys = 0 ↔ k ∉ keys.
Proof.
  induction keys as [|key keys IH].
  - split; [intros _; apply not_elem_of_nil|done].
  - rewrite occurrences_cons, not_elem_of_cons, <- IH.
    destruct (decide (key = k)) as [->|Hne].
    + split; [lia|]. by intros [? _].
    + split; [intros ?; split; [congruence|lia]|]. intros [_ ?]. lia.
Qed.

Lemma occurrences_NoDup k keys :
  NoDup keys → occurrences k keys = if decide (k ∈ keys) then 1 else 0.
Proof.
  induction 1 as [|key keys Hkey Hkeys IH]; [by rewrite decide_False by apply not_elem_of_nil|].
  rewrite occurrences_cons, IH.
  destruct (decide (key = k)) as [->|Hne].
  - rewrite (decide_False (P := k ∈ keys)) by done.
    by rewrite decide_True by apply list_elem_of_here.
  - destruct (decide (k ∈ keys)) as [Hin|Hin].
    + by rewrite decide_True by by apply list_elem_of_further.
    + rewrite decide_False; [done|]. rewrite elem_of_cons. naive_solver.
Qed.

Lemma occurrences_bind k (dialogs : list ProblematicDialog) :
  occurrences k (dialogs ≫= Types)
  = sum_list_with (λ d, occurrences k (Types d)) dialogs.
Proof.
  induction dialogs as [|d dialogs IH]; [done|].
  rewrite bind_cons, occurrences_app, IH. done.
Qed.

Lemma sum_indicator {A} (P : A → Prop) `{∀ x, Decision (P x)} (l : list A) :
  sum_list_with (λ x, if decide (P x) then 1 else 0) l = length (filter P l).
Proof.
  induction l as [|x l IH]; [done|].
  rewrite filter_cons. simpl. rewrite IH. by case_decide.
Qed.

Lemma countKeys_lookup keys (m : gmap string nat) k :
  foldl countTrigger m keys !! k
  = if decide (occurrences k keys = 0) then m !! k
    else Some (m !!! k + occurrences k keys).
Proof.
  revert m. induction keys as [|key keys IH]; intros m; [done|].
  simpl. rewrite IH, occurrences_cons, countTrigger_lookup.
  unfold countTrigger at 1.
  destruct (decide (key = k)) as [->|Hne].
  - rewrite lookup_insert_eq. repeat case_decide; try lia; f_equal; lia.
  - rewrite lookup_insert_ne by done.
    repeat case_decide; try lia; try done; f_equal; lia.
Qed.

Lemma countKeys_perm keys keys' (m : gmap string nat) :
  keys ≡ₚ keys' → foldl countTrigger m keys = foldl countTrigger m keys'.
Proof.
  intros H. apply map_eq. intros k.
  by rewrite !countKeys_lookup, (occurrences_perm k keys keys').
Qed.

Section AggregateLists.

Variable mkdirDialogDir : string → string → bool.

Local Abbreviation aggT' := (aggregateType mkdirDialogDir).
Local Abbreviation aggD' := (aggregateDialog mkdirDialogDir).

Lemma aggregateTypes_stats dialog keys agg :
  stats (foldl (aggT' dialog) agg keys) = foldl countTrigger (stats agg) keys.
Proof.
  revert agg. induction keys as [|k keys IH]; intros agg; [done|].
  simpl. by rewrite IH, aggregateType_stats.
Qed.

Lemma aggregateDialogs_stats dialogs agg :
  stats (foldl aggD' agg dialogs)
  = foldl countTrigger (stats agg) (dialogs ≫= Types).
Proof.
  revert agg. induction dialogs as [|d dialogs IH]; intros agg; [done|].
  rewrite bind_cons, foldl_app. simpl. rewrite IH. unfold aggregateDialog.
  by rewrite aggregateTypes_stats.
Qed.

Lemma aggregate_stats dialogs :
  stats (aggregate mkdirDialogDir dialogs)
  = foldl countTrigger ∅ (dialogs ≫= Types).
Proof. unfold aggregate. by rewrite aggregateDialogs_stats. Qed.

Lemma aggregateType_lists dialog agg typeKey t :
  allDialogs (aggT' dialog agg typeKey) !!! t
  = allDialogs agg !!! t
    ++ (if decide (t = typeKey ∧ mkdirDialogDir t (FolderName dialog) = true)
        then [dialog] else []).
Proof.
  unfold aggregateType.
  destruct (decide (t = typeKey)) as [->|Hne].
  - destruct (mkdirDialogDir typeKey (FolderName dialog)) eqn:E; simpl.
    + rewrite lookup_total_insert_eq. by rewrite decide_True.
    + rewrite decide_False by naive_solver. by rewrite app_nil_r.
  - rewrite decide_False by naive_solver. rewrite app_nil_r.
    destruct (mkdirDialogDir typeKey (FolderName dialog)); simpl; [|done].
    by rewrite lookup_total_insert_ne.
Qed.

Lemma aggregateTypes_lists dialog keys agg t :
  NoDup keys →
  allDialogs (foldl (aggT' dialog) agg keys) !!! t
  = allDialogs agg !!! t
    ++ (if decide (t ∈ keys ∧ mkdirDialogDir t (FolderName dialog) = true)
        then [dialog] else []).
Proof.
  intros Hkeys. revert agg.
  induction Hkeys as [|k keys Hk Hkeys IH]; intros agg; cbn [foldl].
  - rewrite decide_False; [by rewrite app_nil_r|].
    intros [H _]. by apply elem_of_nil in H.
  - rewrite IH, aggregateType_lists, <- app_assoc. f_equal.
    destruct (decide (t = k)) as [->|Hne].
    + destruct (mkdirDialogDir k (FolderName dialog)) eqn:E.
      * rewrite decide_True by done.
        rewrite decide_False by naive_solver.
        by rewrite decide_True by (split; [apply list_elem_of_here|done]).
      * rewrite !decide_False by naive_solver. done.
    + rewrite (decide_False (P := t = k ∧ _)) by naive_solver. simpl.
      destruct (decide (t ∈ keys ∧ _)) as [[Hin Hmk]|Hn].
      * by rewrite decide_True by (split; [by apply list_elem_of_further|done]).
      * rewrite decide_False; [done|]. rewrite elem_of_cons. naive_solver.
Qed.

Lemma aggregateDialogs_lists dialogs agg t :
  Forall (λ d, NoDup (Types d)) dialogs →
  allDialogs (foldl aggD' agg dialogs) !!! t
  = allDialogs agg !!! t
    ++ filter (λ d, t ∈ Types d ∧ mkdirDialogDir t (FolderName d) = true) dialogs.
Proof.
  intros Hd. revert agg.
  induction Hd as [|d dialogs Hnd Hd IH]; intros agg; cbn [foldl].
  - by rewrite filter_nil, app_nil_r.
  - rewrite IH. unfold aggregateDialog. rewrite aggregateTypes_lists by done.
    rewrite <- app_assoc. f_equal. rewrite filter_cons. by case_decide.
Qed.

End AggregateLists.

Section ScannedDialogs.

Variable ToLower : string → string.
Variable EqualFold : string → string → bool.
Variable FindPatternMatches : string → string → list string.
Variable rangeProblemTypesOf : string → nat → list string.
Variable rangeFoundTypes : gset string → list string.
Hypothesis range_found : ∀ s, rangeFoundTypes s ≡ₚ elements s.

Lemma analyzeDialogFolder_NoDup rangeProblemTypes dir folderName d :
  analyzeDialogFolder ToLower EqualFold FindPatternMatches rangeProblemTypes
    rangeFoundTypes dir folderName = Some d →
  NoDup (Types d).
Proof.
  destruct dir as [files|]; [|done]. unfold analyzeDialogFolder.
  destruct (0 <? _); [|done]. intros [= <-]. simpl.
  rewrite sort_Strings_perm, range_found. apply NoDup_elements.
Qed.

Lemma scanFolders_NoDup folders :
  Forall (λ d, NoDup (Types d))
    (scanFolders ToLower EqualFold FindPatternMatches rangeProblemTypesOf
       rangeFoundTypes folders).
Proof.
  induction folders as [|e folders IH]; [constructor|].
  unfold scanFolders. simpl. destruct (negb (IsDir e)); [exact IH|].
  destruct (analyzeDialogFolder _ _ _ _ _ _ _) as [d|] eqn:E; [|exact IH].
  constructor; [|exact IH]. by apply analyzeDialogFolder_NoDup in E.
Qed.

Lemma analyzeDialogFolder_configured problemTypes rangeProblemTypes
    dir folderName d typeKey :
  (∀ n, rangeProblemTypes n ≡ₚ problemTypes) →
  analyzeDialogFolder ToLower EqualFold FindPatternMatches rangeProblemTypes
    rangeFoundTypes dir folderName = Some d →
  typeKey ∈ Types d → typeKey ∈ problemTypes.
Proof.
  intros Hr. destruct dir as [files|]; [|done]. unfold analyzeDialogFolder.
  destruct (0 <? _); [|done]. intros [= <-]. simpl.
  rewrite sort_Strings_perm, range_found, elem_of_elements.
  rewrite (scanFolder_types _ _ _ _ problemTypes Hr).
  by intros (f & _ & _ & msgs & msg & _ & _ & _ & H & _).
Qed.

Lemma scanFolders_configured problemTypes folders d typeKey :
  (∀ folderName n, rangeProblemTypesOf folderName n ≡ₚ problemTypes) →
  d ∈ scanFolders ToLower EqualFold FindPatternMatches rangeProblemTypesOf
        rangeFoundTypes folders →
  typeKey ∈ Types d → typeKey ∈ problemTypes.
Proof.
  intros Hr. unfold scanFolders. rewrite list_elem_of_omap.
  intros (e & _ & He). destruct (negb (IsDir e)); [done|].
  eapply analyzeDialogFolder_configured; [|exact He]. apply Hr.
Qed.

End ScannedDialogs.

(** Extra X1: after a run that ends normally, the count of a type is the
    number of scanned folders whose dialog has this type, whatever the
    order in which the dialogs arrive and whether or not the output
    directories could be made; a type has no entry in [stats] exactly when
    no dialog has it. *)
Theorem count_is_number_of_dialogs_of_type
    (ToLower : string → string) (EqualFold : string → string → bool)
    (FindPatternMatches : string → string → list string)
    (mkdirTypeDir : string → bool) (mkdirDialogDir : string → string → bool)
    (rangeTypeDirs : list string)
    (rangeProblemTypesOf : string → nat → list string)
    (rangeFoundTypes : gset string → list string)
    (arrival : list ProblematicDialog → list ProblematicDialog)
    (folders : list RootEntry) (agg : Aggregate) (typeKey : string) :
  (∀ s, rangeFoundTypes s ≡ₚ elements s) →
  (∀ l, arrival l ≡ₚ l) →
  main ToLower EqualFold FindPatternMatches mkdirTypeDir mkdirDialogDir
    rangeTypeDirs rangeProblemTypesOf rangeFoundTypes arrival (Some folders)
  = Finished agg →
  stats agg !!! typeKey
  = length (filter (λ d, typeKey ∈ Types d)
              (scanFolders ToLower EqualFold FindPatternMatches
                 rangeProblemTypesOf rangeFoundTypes folders))
  ∧ (stats agg !! typeKey = None
     ↔ ∀ d, d ∈ scanFolders ToLower EqualFold FindPatternMatches
                  rangeProblemTypesOf rangeFoundTypes folders →
            typeKey ∉ Types d).
Proof.
  intros Hf Ha. unfold main.
  destruct (find _ rangeTypeDirs); [done|]. intros [= <-].
  set (sent := scanFolders _ _ _ _ _ folders).
  assert (Forall (λ d, NoDup (Types d)) sent) as Hnd
    by by apply scanFolders_NoDup.
  assert (occurrences typeKey (arrival sent ≫= Types)
          = length (filter (λ d, typeKey ∈ Types d) sent)) as Hocc.
  { rewrite (occurrences_perm _ _ (sent ≫= Types)) by by rewrite Ha.
    rewrite occurrences_bind, <- sum_indicator.
    induction Hnd as [|d l Hd Hl IH]; [done|]. simpl.
    by rewrite IH, occurrences_NoDup. }
  rewrite aggregate_stats. split.
  - by rewrite countTriggers_lookup, lookup_total_empty, Hocc.
  - rewrite countKeys_lookup, lookup_empty, Hocc.
    case_decide as Hz.
    + split; [|done]. intros _ d Hd Hin.
      assert (d ∈ filter (λ d, typeKey ∈ Types d) sent) as Hin'
        by by apply list_elem_of_filter.
      destruct (filter _ sent); [by apply elem_of_nil in Hin'|done].
    + split; [done|]. intros Hno. exfalso. apply Hz.
      destruct (filter _ sent) as [|d l] eqn:E; [done|].
      assert (d ∈ filter (λ d, typeKey ∈ Types d) sent) as Hin
        by (rewrite E; apply list_elem_of_here).
      apply list_elem_of_filter in Hin as [Ht Hd]. by destruct (Hno d Hd).
Qed.

(** The theorem at the root of the example. *)
Lemma count_is_number_of_dialogs_of_type_witness :
  (∀ s : gset string, elements s ≡ₚ elements s)
  ∧ (∀ l : list ProblematicDialog, reverse l ≡ₚ l)
  ∧ stats (aggregate (λ _ _, false) (reverse (sampleScanFolders sampleRoot)))
      !!! "refund"
    = length (filter (λ d, "refund" ∈ Types d) (sampleScanFolders sampleRoot)).
Proof.
  assert (∀ s : gset string, elements s ≡ₚ elements s) as H1 by reflexivity.
  assert (∀ l : list ProblematicDialog, reverse l ≡ₚ l) as H2
    by apply reverse_Permutation.
  split_and!; [exact H1|exact H2|].
  exact (proj1 (count_is_number_of_dialogs_of_type asciiToLower asciiEqualFold
    sampleMatches (λ _, true) (λ _ _, false) ["billing"; "refund"] sampleOrders
    (λ s, elements s) reverse sampleRoot _ "refund" H1 H2 eq_refl)).
Defined.

Lemma main_finished ToLower EqualFold FindPatternMatches mkdirTypeDir
    mkdirDialogDir rangeTypeDirs rangeProblemTypesOf rangeFoundTypes arrival
    root agg :
  main ToLower EqualFold FindPatternMatches mkdirTypeDir mkdirDialogDir
    rangeTypeDirs rangeProblemTypesOf rangeFoundTypes arrival root
  = Finished agg →
  ∃ folders, root = Some folders
    ∧ agg = aggregate mkdirDialogDir
              (arrival (scanFolders ToLower EqualFold FindPatternMatches
                          rangeProblemTypesOf rangeFoundTypes folders)).
Proof.
  unfold main. destruct (find _ rangeTypeDirs); [done|].
  destruct root as [folders|]; [|done]. intros [= <-]. by exists folders.
Qed.

Lemma aggregate_lists mkdirDialogDir dialogs typeKey :
  Forall (λ d, NoDup (Types d)) dialogs →
  allDialogs (aggregate mkdirDialogDir dialogs) !!! typeKey
  = filter (λ d, typeKey ∈ Types d
                 ∧ mkdirDialogDir typeKey (FolderName d) = true) dialogs.
Proof.
  intros H. unfold aggregate. rewrite aggregateDialogs_lists by done.
  simpl. by rewrite lookup_total_empty.
Qed.

(** Extra X2: after a run that ends normally, the list of a type holds,
    in the order of arrival, exactly the received dialogs that have this
    type and whose directory below the type could be made. *)
Theorem list_holds_dialogs_of_type_in_arrival_order
    (ToLower : string → string) (EqualFold : string → string → bool)
    (FindPatternMatches : string → string → list string)
    (mkdirTypeDir : string → bool) (mkdirDialogDir : string → string → bool)
    (rangeTypeDirs : list string)
    (rangeProblemTypesOf : string → nat → list string)
    (rangeFoundTypes : gset string → list string)
    (arrival : list ProblematicDialog → list ProblematicDialog)
    (folders : list RootEntry) (agg : Aggregate) (typeKey : string) :
  (∀ s, rangeFoundTypes s ≡ₚ elements s) →
  (∀ l, arrival l ≡ₚ l) →
  main ToLower EqualFold FindPatternMatches mkdirTypeDir mkdirDialogDir
    rangeTypeDirs rangeProblemTypesOf rangeFoundTypes arrival (Some folders)
  = Finished agg →
  allDialogs agg !!! typeKey
  = filter (λ d, typeKey ∈ Types d
                 ∧ mkdirDialogDir typeKey (FolderName d) = true)
      (arrival (scanFolders ToLower EqualFold FindPatternMatches
                  rangeProblemTypesOf rangeFoundTypes folders)).
Proof.
  intros Hf Ha (folders' & [= <-] & ->)%main_finished.
  apply aggregate_lists. rewrite Ha. by apply scanFolders_NoDup.
Qed.

(** The theorem at the root of the example, the directories of [BBB-2]
    failing. *)
Lemma list_holds_dialogs_of_type_witness :
  (∀ s : gset string, elements s ≡ₚ elements s)
  ∧ (∀ l : list ProblematicDialog, reverse l ≡ₚ l)
  ∧ allDialogs (aggregate (λ _ folderName, negb (String.eqb folderName "BBB-2"))
                  (reverse (sampleScanFolders sampleRoot))) !!! "refund"
    = filter (λ d, "refund" ∈ Types d
                   ∧ negb (String.eqb (FolderName d) "BBB-2") = true)
        (reverse (sampleScanFolders sampleRoot)).
Proof.
  assert (∀ s : gset string, elements s ≡ₚ elements s) as H1 by reflexivity.
  assert (∀ l : list ProblematicDialog, reverse l ≡ₚ l) as H2
    by apply reverse_Permutation.
  split_and!; [exact H1|exact H2|].
  exact (list_holds_dialogs_of_type_in_arrival_order asciiToLower asciiEqualFold
    sampleMatches (λ _, true)
    (λ _ folderName, negb (String.eqb folderName "BBB-2"))
    ["billing"; "refund"] sampleOrders
    (λ s, elements s) reverse sampleRoot _ "refund" H1 H2 eq_refl).
Defined.

Example sample_list_after_failure :
  FolderName <$>
    allDialogs (aggregate (λ _ folderName, negb (String.eqb folderName "BBB-2"))
                  (reverse (sampleScanFolders sampleRoot))) !!! "refund"
  = ["AAA-1"].
Proof. vm_compute. reflexivity. Qed.

(** Extra X3: two runs over the same input that receive the dialogs in
    different orders end with the same counts, and for every type with
    lists that hold the same dialogs, possibly in another order. *)
Theorem runs_agree_up_to_arrival_order
    (ToLower : string → string) (EqualFold : string → string → bool)
    (FindPatternMatches : string → string → list string)
    (mkdirTypeDir : string → bool) (mkdirDialogDir : string → string → bool)
    (rangeTypeDirs : list string)
    (rangeProblemTypesOf : string → nat → list string)
    (rangeFoundTypes : gset string → list string)
    (arrival arrival' : list ProblematicDialog → list ProblematicDialog)
    (folders : list RootEntry) (agg agg' : Aggregate) :
  (∀ s, rangeFoundTypes s ≡ₚ elements s) →
  (∀ l, arrival l ≡ₚ l) →
  (∀ l, arrival' l ≡ₚ l) →
  main ToLower EqualFold FindPatternMatches mkdirTypeDir mkdirDialogDir
    rangeTypeDirs rangeProblemTypesOf rangeFoundTypes arrival (Some folders)
  = Finished agg →
  main ToLower EqualFold FindPatternMatches mkdirTypeDir mkdirDialogDir
    rangeTypeDirs rangeProblemTypesOf rangeFoundTypes arrival' (Some folders)
  = Finished agg' →
  stats agg = stats agg'
  ∧ ∀ typeKey, allDialogs agg !!! typeKey ≡ₚ allDialogs agg' !!! typeKey.
Proof.
  intros Hf Ha Ha' (? & [= <-] & ->)%main_finished
    (? & [= <-] & ->)%main_finished.
  split.
  - rewrite !aggregate_stats. apply countKeys_perm. by rewrite Ha, Ha'.
  - intros typeKey.
    rewrite !aggregate_lists
      by (rewrite ?Ha, ?Ha'; by apply scanFolders_NoDup).
    by rewrite Ha, Ha'.
Qed.

(** The theorem at the root of the example: arrival in the order of the
    listing and in its reverse. *)
Lemma runs_agree_witness :
  (∀ s : gset string, elements s ≡ₚ elements s)
  ∧ (∀ l : list ProblematicDialog, id l ≡ₚ l)
  ∧ (∀ l : list ProblematicDialog, reverse l ≡ₚ l)
  ∧ stats (aggregate (λ _ _, true) (id (sampleScanFolders sampleRoot)))
    = stats (aggregate (λ _ _, true) (reverse (sampleScanFolders sampleRoot))).
Proof.
  assert (∀ s : gset string, elements s ≡ₚ elements s) as H1 by reflexivity.
  assert (∀ l : list ProblematicDialog, id l ≡ₚ l) as H2 by reflexivity.
  assert (∀ l : list ProblematicDialog, reverse l ≡ₚ l) as H3
    by apply reverse_Permutation.
  split_and!; [exact H1|exact H2|exact H3|].
  exact (proj1 (runs_agree_up_to_arrival_order asciiToLower asciiEqualFold
    sampleMatches (λ _, true) (λ _ _, true) ["billing"; "refund"] sampleOrders
    (λ s, elements s) id reverse sampleRoot _ _ H1 H2 H3 eq_refl eq_refl)).
Defined.

(** Extra X4: after a run that ends normally every key of [stats] is a
    key of [problemTypes] and its count is at least one: no type is
    counted that is not configured, and no entry holds a zero. *)
Theorem counted_types_are_configured_and_positive
    (ToLower : string → string) (EqualFold : string → string → bool)
    (FindPatternMatches : string → string → list string)
    (problemTypes : list string)
    (mkdirTypeDir : string → bool) (mkdirDialogDir : string → string → bool)
    (rangeTypeDirs : list string)
    (rangeProblemTypesOf : string → nat → list string)
    (rangeFoundTypes : gset string → list string)
    (arrival : list ProblematicDialog → list ProblematicDialog)
    (root : option (list RootEntry)) (agg : Aggregate)
    (typeKey : string) (count : nat) :
  (∀ folderName n, rangeProblemTypesOf folderName n ≡ₚ problemTypes) →
  (∀ s, rangeFoundTypes s ≡ₚ elements s) →
  (∀ l, arrival l ≡ₚ l) →
  main ToLower EqualFold FindPatternMatches mkdirTypeDir mkdirDialogDir
    rangeTypeDirs rangeProblemTypesOf rangeFoundTypes arrival root
  = Finished agg →
  stats agg !! typeKey = Some count →
  1 ≤ count ∧ typeKey ∈ problemTypes.
Proof.
  intros Hr Hf Ha (folders & -> & ->)%main_finished.
  rewrite aggregate_stats, countKeys_lookup, lookup_empty.
  case_decide as Hz; [done|]. intros [= <-]. split; [lia|].
  assert (typeKey ∈ arrival (scanFolders ToLower EqualFold FindPatternMatches
                               rangeProblemTypesOf rangeFoundTypes folders)
                    ≫= Types) as Hin.
  { destruct (decide (typeKey ∈ arrival (scanFolders ToLower EqualFold
       FindPatternMatches rangeProblemTypesOf rangeFoundTypes folders)
       ≫= Types)) as [|Hn]; [done|].
    by apply occurrences_zero in Hn. }
  apply list_elem_of_bind in Hin as (d & Ht & Hd). rewrite Ha in Hd.
  by eapply scanFolders_configured.
Qed.

(** The theorem at the root of the example. *)
Lemma counted_types_witness :
  (∀ (folderName : string) (n : nat),
     sampleOrders folderName n ≡ₚ sampleTypes.*1)
  ∧ (∀ s : gset string, elements s ≡ₚ elements s)
  ∧ (∀ l : list ProblematicDialog, reverse l ≡ₚ l)
  ∧ stats (aggregate (λ _ _, true) (reverse (sampleScanFolders sampleRoot)))
      !! "refund" = Some 2
  ∧ 1 ≤ 2 ∧ "refund" ∈ sampleTypes.*1.
Proof.
  assert (∀ (folderName : string) (n : nat),
            sampleOrders folderName n ≡ₚ sampleTypes.*1) as H0.
  { intros folderName n. unfold sampleOrders.
    destruct (String.eqb folderName "BBB-2"); [reflexivity|apply perm_swap]. }
  assert (∀ s : gset string, elements s ≡ₚ elements s) as H1 by reflexivity.
  assert (∀ l : list ProblematicDialog, reverse l ≡ₚ l) as H2
    by apply reverse_Permutation.
  assert (stats (aggregate (λ _ _, true)
                   (reverse (sampleScanFolders sampleRoot))) !! "refund"
          = Some 2) as H3 by (vm_compute; reflexivity).
  split_and!; [exact H0|exact H1|exact H2|exact H3| |];
    apply (counted_types_are_configured_and_positive asciiToLower
             asciiEqualFold sampleMatches (sampleTypes.*1) (λ _, true)
             (λ _ _, true) ["billing"; "refund"] sampleOrders
             (λ s, elements s) reverse (Some sampleRoot) _ "refund" 2
             H0 H1 H2 eq_refl H3).
Defined.

Lemma aggregateType_all_made mkdirDialogDir dialog agg typeKey :
  (∀ k folderName, mkdirDialogDir k folderName = true) →
  (∀ t, length (allDialogs agg !!! t) = stats agg !!! t) →
  ∀ t, length (allDialogs (aggregateType mkdirDialogDir dialog agg typeKey) !!! t)
       = stats (aggregateType mkdirDialogDir dialog agg typeKey) !!! t.
Proof.
  intros Hmk H t. rewrite aggregateType_stats, aggregateType_lists, Hmk.
  rewrite length_app, H. destruct (decide (t = typeKey)) as [->|Hne].
  - rewrite decide_True by done. rewrite lookup_total_insert_eq. simpl. lia.
  - rewrite decide_False by naive_solver.
    rewrite lookup_total_insert_ne by done. simpl. lia.
Qed.

(** Extra X5: when every directory of a dialog can be made, the list of
    each type is exactly as long as the count of the type. *)
Theorem lists_as_long_as_counts_when_directories_made
    (mkdirDialogDir : string → string → bool)
    (dialogs : list ProblematicDialog) (typeKey : string) :
  (∀ k folderName, mkdirDialogDir k folderName = true) →
  length (allDialogs (aggregate mkdirDialogDir dialogs) !!! typeKey)
  = stats (aggregate mkdirDialogDir dialogs) !!! typeKey.
Proof.
  intros Hmk. revert typeKey. unfold aggregate.
  assert (∀ t, length (allDialogs emptyAggregate !!! t)
               = stats emptyAggregate !!! t) as H.
  { intros t. simpl. by rewrite !lookup_total_empty. }
  revert H. generalize emptyAggregate as agg.
  induction dialogs as [|d dialogs IH]; intros agg H; [done|].
  simpl. apply IH. unfold aggregateDialog.
  revert H. generalize agg as a. generalize (Types d) as keys.
  induction keys as [|k keys IHk]; intros a H; [done|].
  simpl. by apply IHk, aggregateType_all_made.
Qed.

(** The theorem at the dialogs of the example. *)
Lemma lists_as_long_as_counts_witness :
  (∀ k folderName : string, (λ _ _ : string, true) k folderName = true)
  ∧ length (allDialogs sampleAggregate !!! "billing")
    = stats sampleAggregate !!! "billing".
Proof.
  assert (∀ k folderName : string, (λ _ _ : string, true) k folderName = true)
    as H by reflexivity.
  split; [exact H|].
  exact (lists_as_long_as_counts_when_directories_made (λ _ _, true)
           (sampleScanFolders sampleRoot) "billing" H).
Defined.

(** ** More about the scanner *)

Section ScannerMore.

Variable ToLower : string → string.
Variable EqualFold : string → string → bool.
Variable FindPatternMatches : string → string → list string.
Variable rangeProblemTypes : nat → list string.

Local Abbreviation addT2 := (addTrigger EqualFold).
Local Abbreviation scanT2 := (scanType EqualFold FindPatternMatches).
Local Abbreviation scanM2 :=
  (scanMessage ToLower EqualFold FindPatternMatches rangeProblemTypes).
Local Abbreviation scanF2 :=
  (scanFile ToLower EqualFold FindPatternMatches rangeProblemTypes).
Local Abbreviation scanAll2 :=
  (scanFolder ToLower EqualFold FindPatternMatches rangeProblemTypes).

Local Abbreviation recorded := (recordedUpToCase EqualFold).

(** *** Where the triggers come from *)

Lemma addTrigger_elem triggers m t : t ∈ addT2 triggers m → t ∈ triggers ∨ t = m.
Proof.
  unfold addTrigger. destruct (triggerExists _ _ _); [by left|].
  rewrite elem_of_app, list_elem_of_singleton. tauto.
Qed.

Lemma addTriggers_elem matches triggers t :
  t ∈ foldl addT2 triggers matches → t ∈ triggers ∨ t ∈ matches.
Proof.
  revert triggers. induction matches as [|m matches IH]; intros triggers;
    [by left|]. simpl. intros [[H | ->]%addTrigger_elem | H]%IH.
  - by left.
  - right. apply list_elem_of_here.
  - right. by apply list_elem_of_further.
Qed.

Lemma scanTypes_elem text keys acc t :
  t ∈ (foldl (scanT2 text) acc keys).2 →
  t ∈ acc.2 ∨ ∃ k, k ∈ keys ∧ t ∈ FindPatternMatches text k.
Proof.
  revert acc. induction keys as [|k keys IH]; intros acc; [by left|].
  simpl. intros [H | (k' & Hk' & H)]%IH.
  - unfold scanType in H. destruct (length _ =? 0); [by left|].
    simpl in H. apply addTriggers_elem in H as [H | H]; [by left|].
    right. exists k. split; [apply list_elem_of_here|done].
  - right. exists k'. split; [by apply list_elem_of_further|done].
Qed.

Lemma scanMessages_elem msgs st t :
  t ∈ foundTriggers (foldl scanM2 st msgs) →
  t ∈ foundTriggers st
  ∨ ∃ msg n k, msg ∈ msgs ∧ isClient msg ∧ k ∈ rangeProblemTypes n
      ∧ t ∈ FindPatternMatches (ToLower (Text msg)) k.
Proof.
  revert st. induction msgs as [|msg msgs IH]; intros st; [by left|].
  simpl. intros [H | (msg' & n & k & Hm & H)]%IH.
  - unfold scanMessage, isClient in *.
    destruct (HasPrefix (UserID msg) "user_") eqn:E; simpl in H; [|by left].
    apply scanTypes_elem in H as [H | (k & Hk & H)]; [by left|].
    right. exists msg, (ranges st), k. split_and!; [apply list_elem_of_here|done..].
  - right. exists msg', n, k. split; [by apply list_elem_of_further|done].
Qed.

Lemma scanFiles_elem folderName files st t :
  t ∈ foundTriggers (foldl (scanF2 folderName) st files) →
  t ∈ foundTriggers st
  ∨ ∃ f msgs msg n k, f ∈ files ∧ isChat f ∧ Data f = ChatMessages msgs
      ∧ msg ∈ msgs ∧ isClient msg ∧ k ∈ rangeProblemTypes n
      ∧ t ∈ FindPatternMatches (ToLower (Text msg)) k.
Proof.
  revert st. induction files as [|f files IH]; intros st; [by left|].
  simpl. intros [H | (f' & msgs & msg & n & k & Hf & H)]%IH.
  - unfold scanFile, isChat in *.
    destruct (Contains (Name f) "_chat.json") eqn:E; simpl in H; [|by left].
    destruct (Data f) as [| |msgs] eqn:Ed; [by left|by left|].
    apply scanMessages_elem in H as [H | (msg & n & k & Hm & Hc & Hk & H)];
      [by left|].
    right. exists f, msgs, msg, n, k.
    split_and!; [apply list_elem_of_here|done..].
  - right. exists f', msgs, msg, n, k.
    split; [by apply list_elem_of_further|done].
Qed.

(** *** Every match is recorded *)

Lemma recorded_prefix l l' m : l `prefix_of` l' → recorded l m → recorded l' m.
Proof.
  intros [k ->] (t & Ht & H). exists t. split; [|done].
  apply elem_of_app. by left.
Qed.

Lemma addTrigger_records triggers m : recorded (addT2 triggers m) m.
Proof.
  unfold addTrigger. destruct (triggerExists _ _ _) eqn:E.
  - apply triggerExists_true in E as (t & Ht & E). exists t. auto.
  - exists m. split; [|by left]. apply elem_of_app. right.
    apply list_elem_of_here.
Qed.

Lemma addTriggers_records matches triggers m :
  m ∈ matches → recorded (foldl addT2 triggers matches) m.
Proof.
  revert triggers. induction matches as [|m' matches IH]; intros triggers;
    [by intros ?%elem_of_nil|].
  simpl. intros [-> | H]%elem_of_cons; [|by apply IH].
  eapply recorded_prefix; [apply addTriggers_prefix|apply addTrigger_records].
Qed.

Lemma scanTypes_prefix text keys acc :
  acc.2 `prefix_of` (foldl (scanT2 text) acc keys).2.
Proof.
  apply (kept_scanTypes EqualFold FindPatternMatches (λ l, acc.2 `prefix_of` l));
    [|reflexivity].
  intros l m H. etrans; [exact H|apply addTrigger_prefix].
Qed.

Lemma scanTypes_records text keys acc k m :
  k ∈ keys → m ∈ FindPatternMatches text k →
  recorded (foldl (scanT2 text) acc keys).2 m.
Proof.
  revert acc. induction keys as [|k' keys IH]; intros acc;
    [by intros ?%elem_of_nil|].
  simpl. intros [-> | H]%elem_of_cons Hm; [|by apply IH].
  eapply recorded_prefix; [apply scanTypes_prefix|].
  unfold scanType. destruct (length _ =? 0) eqn:E.
  - apply Nat.eqb_eq, nil_length_inv in E. rewrite E in Hm.
    by apply elem_of_nil in Hm.
  - simpl. by apply addTriggers_records.
Qed.

Lemma scanMessages_prefix msgs st :
  foundTriggers st `prefix_of` foundTriggers (foldl scanM2 st msgs).
Proof.
  apply (kept_scanMessages ToLower EqualFold FindPatternMatches
           rangeProblemTypes (λ l, foundTriggers st `prefix_of` l));
    [|reflexivity].
  intros l m H. etrans; [exact H|apply addTrigger_prefix].
Qed.

Lemma scanFiles_prefix folderName files st :
  foundTriggers st
    `prefix_of` foundTriggers (foldl (scanF2 folderName) st files).
Proof.
  apply (kept_scanFiles ToLower EqualFold FindPatternMatches
           rangeProblemTypes (λ l, foundTriggers st `prefix_of` l));
    [|reflexivity].
  intros l m H. etrans; [exact H|apply addTrigger_prefix].
Qed.

Lemma scanMessages_records msgs st msg k m :
  (∀ n, k ∈ rangeProblemTypes n) →
  msg ∈ msgs → isClient msg → m ∈ FindPatternMatches (ToLower (Text msg)) k →
  recorded (foundTriggers (foldl scanM2 st msgs)) m.
Proof.
  intros Hk. revert st. induction msgs as [|msg' msgs IH]; intros st;
    [by intros ?%elem_of_nil|].
  simpl. intros [-> | H]%elem_of_cons Hc Hm; [|by apply IH].
  eapply recorded_prefix; [apply scanMessages_prefix|].
  unfold scanMessage. unfold isClient in Hc. rewrite Hc. simpl.
  eapply scanTypes_records; [apply Hk|done].
Qed.

Lemma scanFiles_records folderName files st f msgs msg k m :
  (∀ n, k ∈ rangeProblemTypes n) →
  f ∈ files → isChat f → Data f = ChatMessages msgs →
  msg ∈ msgs → isClient msg → m ∈ FindPatternMatches (ToLower (Text msg)) k →
  recorded (foundTriggers (foldl (scanF2 folderName) st files)) m.
Proof.
  intros Hk. revert st. induction files as [|f' files IH]; intros st;
    [by intros ?%elem_of_nil|].
  simpl. intros [-> | H]%elem_of_cons Hchat Hdata Hmsg Hc Hm;
    [|by eapply IH].
  eapply recorded_prefix; [apply scanFiles_prefix|].
  unfold scanFile. unfold isChat in Hchat. rewrite Hchat, Hdata. simpl.
  by eapply scanMessages_records.
Qed.

(** *** Growing folders *)

Lemma scanTypes_types_mono text keys acc :
  acc.1 ⊆ (foldl (scanT2 text) acc keys).1.
Proof.
  revert acc. induction keys as [|k keys IH]; intros acc; [done|].
  simpl. etrans; [|apply IH]. unfold scanType.
  destruct (length _ =? 0); [done|]. simpl. set_solver.
Qed.

Lemma scanMessages_types_mono msgs st :
  foundTypes st ⊆ foundTypes (foldl scanM2 st msgs).
Proof.
  revert st. induction msgs as [|msg msgs IH]; intros st; [done|].
  simpl. etrans; [|apply IH]. unfold scanMessage.
  destruct (negb _); [done|]. simpl.
  apply (scanTypes_types_mono _ _ (foundTypes st, foundTriggers st)).
Qed.

Lemma scanFiles_types_mono folderName files st :
  foundTypes st ⊆ foundTypes (foldl (scanF2 folderName) st files).
Proof.
  revert st. induction files as [|f files IH]; intros st; [done|].
  simpl. etrans; [|apply IH]. unfold scanFile.
  destruct (negb _); [done|].
  destruct (Data f); [done|done|].
  etrans; [|apply scanMessages_types_mono]. done.
Qed.

End ScannerMore.

Lemma analyzeDialogFolder_result ToLower EqualFold FindPatternMatches
    rangeProblemTypes rangeFoundTypes files folderName d :
  analyzeDialogFolder ToLower EqualFold FindPatternMatches rangeProblemTypes
    rangeFoundTypes (Some files) folderName = Some d →
  0 < size (foundTypes (scanFolder ToLower EqualFold FindPatternMatches
                          rangeProblemTypes folderName files))
  ∧ d = {| FolderName := folderName;
           ID := dialogID (scanFolder ToLower EqualFold FindPatternMatches
                             rangeProblemTypes folderName files);
           Types := sort_Strings
                      (rangeFoundTypes
                         (foundTypes (scanFolder ToLower EqualFold
                            FindPatternMatches rangeProblemTypes folderName
                            files)));
           Files := Name <$> files;
           Triggers := foundTriggers
                         (scanFolder ToLower EqualFold FindPatternMatches
                            rangeProblemTypes folderName files) |}.
Proof.
  unfold analyzeDialogFolder. destruct (0 <? _) eqn:E; [|done].
  intros [= <-]. by apply Nat.ltb_lt in E.
Qed.

Lemma folderMatches_intro ToLower FindPatternMatches problemTypes files
    f msgs msg typeKey m :
  f ∈ files → isChat f → Data f = ChatMessages msgs → msg ∈ msgs →
  isClient msg → typeKey ∈ problemTypes →
  m ∈ FindPatternMatches (ToLower (Text msg)) typeKey →
  folderMatches ToLower FindPatternMatches problemTypes files typeKey.
Proof.
  intros Hin Hchat Hdata Hmsg Hc Hk Hm.
  exists f. split; [done|]. split; [done|]. exists msgs, msg.
  split; [done|]. split; [done|]. split; [done|]. split; [done|].
  intros E. rewrite E in Hm. by apply elem_of_nil in Hm.
Qed.

(** Extra X6: every trigger in a result was reported by the matcher for
    the lower-cased text of a client's message in a transcript of the
    folder that was read and decoded, and for a type that is among the
    types of the result. *)
Theorem recorded_triggers_are_matches
    (ToLower : string → string) (EqualFold : string → string → bool)
    (FindPatternMatches : string → string → list string)
    (problemTypes : list string)
    (rangeProblemTypes : nat → list string)
    (rangeFoundTypes : gset string → list string)
    (files : list DirFile) (folderName : string) (d : ProblematicDialog)
    (trigger : string) :
  (∀ n, rangeProblemTypes n ≡ₚ problemTypes) →
  (∀ s, rangeFoundTypes s ≡ₚ elements s) →
  analyzeDialogFolder ToLower EqualFold FindPatternMatches rangeProblemTypes
    rangeFoundTypes (Some files) folderName = Some d →
  trigger ∈ Triggers d →
  ∃ f msgs msg typeKey,
    f ∈ files ∧ isChat f ∧ Data f = ChatMessages msgs ∧ msg ∈ msgs
    ∧ isClient msg ∧ typeKey ∈ Types d
    ∧ trigger ∈ FindPatternMatches (ToLower (Text msg)) typeKey.
Proof.
  intros Hr Hf [_ ->]%analyzeDialogFolder_result. simpl.
  unfold scanFolder at 1.
  intros [H | (f & msgs & msg & n & k & Hin & Hchat & Hdata & Hmsg & Hc & Hk & Ht)]
    %scanFiles_elem; [by apply elem_of_nil in H|].
  exists f, msgs, msg, k. split_and!; try done.
  rewrite sort_Strings_perm, Hf, elem_of_elements.
  rewrite (scanFolder_types _ _ _ _ problemTypes Hr).
  eapply folderMatches_intro; try done. by rewrite <- (Hr n).
Qed.

(** The theorem at the folder of the example. *)
Lemma recorded_triggers_are_matches_witness :
  (∀ n, (λ _ : nat, ["refund"; "billing"]) n ≡ₚ sampleTypes.*1)
  ∧ (∀ s : gset string, elements s ≡ₚ elements s)
  ∧ sampleAnalyze ["refund"; "billing"] (Some sampleFolder) "AAA-1"
    = Some sampleDialog
  ∧ "Refund" ∈ Triggers sampleDialog
  ∧ ∃ f msgs msg typeKey,
      f ∈ sampleFolder ∧ isChat f ∧ Data f = ChatMessages msgs ∧ msg ∈ msgs
      ∧ isClient msg ∧ typeKey ∈ Types sampleDialog
      ∧ "Refund" ∈ sampleMatches (asciiToLower (Text msg)) typeKey.
Proof.
  assert (∀ n, (λ _ : nat, ["refund"; "billing"]) n ≡ₚ sampleTypes.*1) as H1
    by (intros _; apply perm_swap).
  assert (∀ s : gset string, elements s ≡ₚ elements s) as H2 by reflexivity.
  assert (sampleAnalyze ["refund"; "billing"] (Some sampleFolder) "AAA-1"
          = Some sampleDialog) as H3 by (vm_compute; reflexivity).
  assert ("Refund" ∈ Triggers sampleDialog) as H4 by apply list_elem_of_here.
  split_and!; [exact H1|exact H2|exact H3|exact H4|].
  exact (recorded_triggers_are_matches asciiToLower asciiEqualFold sampleMatches
           (sampleTypes.*1) (λ _, ["refund"; "billing"]) (λ s, elements s)
           sampleFolder "AAA-1" sampleDialog "Refund" H1 H2 H3 H4).
Defined.

(** Extra X7: when the matcher reports a trigger of a configured type for
    the lower-cased text of a client's message in a transcript that was
    read and decoded, the folder has a result, the type is among its
    types, and the trigger is in its trigger list, in the reported casing
    or as an entry equal to it up to case. *)
Theorem matches_are_recorded_up_to_case
    (ToLower : string → string) (EqualFold : string → string → bool)
    (FindPatternMatches : string → string → list string)
    (problemTypes : list string)
    (rangeProblemTypes : nat → list string)
    (rangeFoundTypes : gset string → list string)
    (files : list DirFile) (folderName : string)
    (f : DirFile) (msgs : list Message) (msg : Message)
    (typeKey m : string) :
  (∀ n, rangeProblemTypes n ≡ₚ problemTypes) →
  (∀ s, rangeFoundTypes s ≡ₚ elements s) →
  f ∈ files → isChat f → Data f = ChatMessages msgs → msg ∈ msgs →
  isClient msg → typeKey ∈ problemTypes →
  m ∈ FindPatternMatches (ToLower (Text msg)) typeKey →
  ∃ d,
    analyzeDialogFolder ToLower EqualFold FindPatternMatches rangeProblemTypes
      rangeFoundTypes (Some files) folderName = Some d
    ∧ typeKey ∈ Types d
    ∧ recordedUpToCase EqualFold (Triggers d) m.
Proof.
  intros Hr Hf Hin Hchat Hdata Hmsg Hc Hk Hm.
  assert (typeKey ∈ foundTypes (scanFolder ToLower EqualFold FindPatternMatches
                                  rangeProblemTypes folderName files)) as Ht.
  { rewrite (scanFolder_types _ _ _ _ problemTypes Hr).
    by eapply folderMatches_intro. }
  unfold analyzeDialogFolder.
  destruct (0 <? _) eqn:Hsize.
  - eexists. split; [done|]. simpl. split.
    + by rewrite sort_Strings_perm, Hf, elem_of_elements.
    + unfold scanFolder. eapply scanFiles_records; try done.
      intros n. by rewrite (Hr n).
  - apply Nat.ltb_ge in Hsize.
    assert (size (foundTypes (scanFolder ToLower EqualFold FindPatternMatches
                                rangeProblemTypes folderName files)) ≠ 0);
      [|lia].
    apply size_non_empty_iff. set_solver.
Qed.

(** The theorem at the folder of the example: the client's message gives
    [refund] for the type [billing], and the list has [Refund]. *)
Lemma matches_are_recorded_witness :
  (∀ n, (λ _ : nat, ["refund"; "billing"]) n ≡ₚ sampleTypes.*1)
  ∧ (∀ s : gset string, elements s ≡ₚ elements s)
  ∧ ∃ d,
      sampleAnalyze ["refund"; "billing"] (Some sampleFolder) "AAA-1" = Some d
      ∧ "billing" ∈ Types d
      ∧ recordedUpToCase asciiEqualFold (Triggers d) "refund".
Proof.
  assert (∀ n, (λ _ : nat, ["refund"; "billing"]) n ≡ₚ sampleTypes.*1) as H1
    by (intros _; apply perm_swap).
  assert (∀ s : gset string, elements s ≡ₚ elements s) as H2 by reflexivity.
  split_and!; [exact H1|exact H2|].
  refine (matches_are_recorded_up_to_case asciiToLower asciiEqualFold
            sampleMatches (sampleTypes.*1) (λ _, ["refund"; "billing"])
            (λ s, elements s) sampleFolder "AAA-1"
            {| Name := "conv_AAA-1_chat.json";
               Data := ChatMessages
                         [operator "refund"; client "I want a Refund, a REFUND"] |}
            [operator "refund"; client "I want a Refund, a REFUND"]
            (client "I want a Refund, a REFUND") "billing" "refund"
            H1 H2 _ _ _ _ _ _ _).
  - apply list_elem_of_here.
  - reflexivity.
  - reflexivity.
  - apply list_elem_of_further, list_elem_of_here.
  - reflexivity.
  - apply list_elem_of_here.
  - vm_compute. apply list_elem_of_here.
Defined.

(** Extra X8: a file whose name does not contain [_chat.json] is neither
    read nor scanned: the result of the folder is the result of the folder
    without the file, except that the file's name is in the list of
    files. *)
Theorem other_files_only_add_their_name
    (ToLower : string → string) (EqualFold : string → string → bool)
    (FindPatternMatches : string → string → list string)
    (rangeProblemTypes : nat → list string)
    (rangeFoundTypes : gset string → list string)
    (pre post : list DirFile) (f : DirFile) (folderName : string) :
  ¬ isChat f →
  analyzeDialogFolder ToLower EqualFold FindPatternMatches rangeProblemTypes
    rangeFoundTypes (Some (pre ++ f :: post)) folderName
  = (λ d, {| FolderName := FolderName d; ID := ID d; Types := Types d;
             Files := Name <$> (pre ++ f :: post);
             Triggers := Triggers d |})
    <$> analyzeDialogFolder ToLower EqualFold FindPatternMatches
          rangeProblemTypes rangeFoundTypes (Some (pre ++ post)) folderName.
Proof.
  intros Hf. unfold analyzeDialogFolder.
  assert (scanFolder ToLower EqualFold FindPatternMatches rangeProblemTypes
            folderName (pre ++ f :: post)
          = scanFolder ToLower EqualFold FindPatternMatches rangeProblemTypes
              folderName (pre ++ post)) as ->.
  { unfold scanFolder. rewrite !foldl_app. simpl. by rewrite scanFile_other. }
  by destruct (0 <? _).
Qed.

(** The theorem at the folder of the example with a picture added. *)
Lemma other_files_only_add_their_name_witness :
  ¬ isChat {| Name := "photo.png"; Data := ReadFileError |}
  ∧ Files <$> sampleAnalyze ["refund"; "billing"]
                (Some ([] ++ {| Name := "photo.png"; Data := ReadFileError |}
                          :: sampleFolder)) "AAA-1"
    = Some ["photo.png"; "conv_AAA-1_chat.json"; "conv_AAA-1_info.json"].
Proof.
  assert (¬ isChat {| Name := "photo.png"; Data := ReadFileError |}) as H
    by (vm_compute; discriminate).
  split; [exact H|].
  unfold sampleAnalyze.
  rewrite (other_files_only_add_their_name asciiToLower asciiEqualFold
             sampleMatches (λ _, ["refund"; "billing"]) (λ s, elements s)
             [] sampleFolder {| Name := "photo.png"; Data := ReadFileError |}
             "AAA-1" H).
  vm_compute. reflexivity.
Defined.

(** Extra X9: either the pattern matches nowhere in the file name and
    the ID is the folder name, or the ID is the group of the match of the
    pattern that starts leftmost in the file name. *)
Theorem extracted_id_is_leftmost_match_or_folder_name
    (fileName folderName : string) :
  (extractID fileName folderName = folderName
   ∧ ∀ pre post g, fileName = pre +:+ post → ¬ matchesHere post g)
  ∨ ∃ pre post,
      fileName = pre +:+ post
      ∧ matchesHere post (extractID fileName folderName)
      ∧ ∀ pre' post' g', fileName = pre' +:+ post' →
          String.length pre' < String.length pre → ¬ matchesHere post' g'.
Proof.
  rewrite extractID_lookup.
  destruct (FindStringSubmatch_shape fileName) as [E | [g E]].
  - left. rewrite E. split; [done|]. by apply FindStringSubmatch_none.
  - right. rewrite E. simpl.
    by apply FindStringSubmatch_found in E as [_ H].
Qed.

Lemma append_assoc_string (a b c : string) : (a +:+ b) +:+ c = a +:+ b +:+ c.
Proof.
  induction a as [|x a IH]; [done|].
  change (String x ((a +:+ b) +:+ c) = String x (a +:+ b +:+ c)).
  by rewrite IH.
Qed.

Lemma append_empty_r (a : string) : a +:+ EmptyString = a.
Proof.
  induction a as [|x a IH]; [done|].
  change (String x (a +:+ EmptyString) = String x a). by rewrite IH.
Qed.

Lemma FindStringSubmatch_at_start s g :
  convFilePattern_at s = Some g →
  convFilePattern_FindStringSubmatch s = ["conv_" +:+ g +:+ "_"; g].
Proof. intros H. destruct s; [done|]. simpl. by rewrite H. Qed.

(** Extra X10: a transcript named by the convention gives back its ID: for
    capital letters and digits, not empty, the file
    [conv_<letters>-<digits>_chat.json] is taken for a transcript and the
    ID extracted from its name is [<letters>-<digits>], whatever the
    folder is called. *)
Theorem conventional_name_gives_back_id
    (letters digits folderName : string) :
  letters ≠ EmptyString → allBytes isUpperAZ letters = true →
  digits ≠ EmptyString → allBytes isDigit digits = true →
  Contains ("conv_" +:+ letters +:+ "-" +:+ digits +:+ "_chat.json")
    "_chat.json" = true
  ∧ extractID ("conv_" +:+ letters +:+ "-" +:+ digits +:+ "_chat.json")
      folderName
    = letters +:+ "-" +:+ digits.
Proof.
  intros Hl Hup Hd Hdig. split.
  - apply Contains_spec.
    exists ("conv_" +:+ letters +:+ "-" +:+ digits), EmptyString.
    by rewrite append_empty_r, !append_assoc_string.
  - rewrite extractID_lookup.
    rewrite (FindStringSubmatch_at_start _ (letters +:+ "-" +:+ digits));
      [done|].
    apply convFilePattern_at_spec. by exists letters, digits, "chat.json".
Qed.

(** The theorem at the name of the specification's example. *)
Lemma conventional_name_gives_back_id_witness :
  "AAA" ≠ EmptyString ∧ allBytes isUpperAZ "AAA" = true
  ∧ "11314" ≠ EmptyString ∧ allBytes isDigit "11314" = true
  ∧ extractID ("conv_" +:+ "AAA" +:+ "-" +:+ "11314" +:+ "_chat.json") "folder"
    = "AAA" +:+ "-" +:+ "11314".
Proof.
  assert ("AAA" ≠ EmptyString) as H1 by discriminate.
  assert (allBytes isUpperAZ "AAA" = true) as H2 by reflexivity.
  assert ("11314" ≠ EmptyString) as H3 by discriminate.
  assert (allBytes isDigit "11314" = true) as H4 by reflexivity.
  split_and!; [exact H1|exact H2|exact H3|exact H4|].
  exact (proj2 (conventional_name_gives_back_id "AAA" "11314" "folder"
                  H1 H2 H3 H4)).
Defined.

(** Extra X11: files added at the end of a folder's listing never take a
    result away: the folder still has a result, every type found before
    is still among its types, and the triggers found before are the first
    entries of its trigger list, in the same order and casing. *)
Theorem more_files_extend_the_result
    (ToLower : string → string) (EqualFold : string → string → bool)
    (FindPatternMatches : string → string → list string)
    (rangeProblemTypes : nat → list string)
    (rangeFoundTypes : gset string → list string)
    (files more : list DirFile) (folderName : string) (d : ProblematicDialog) :
  (∀ s, rangeFoundTypes s ≡ₚ elements s) →
  analyzeDialogFolder ToLower EqualFold FindPatternMatches rangeProblemTypes
    rangeFoundTypes (Some files) folderName = Some d →
  ∃ d',
    analyzeDialogFolder ToLower EqualFold FindPatternMatches rangeProblemTypes
      rangeFoundTypes (Some (files ++ more)) folderName = Some d'
    ∧ Types d ⊆ Types d'
    ∧ Triggers d `prefix_of` Triggers d'.
Proof.
  intros Hf [Hsize ->]%analyzeDialogFolder_result.
  unfold analyzeDialogFolder.
  assert (scanFolder ToLower EqualFold FindPatternMatches rangeProblemTypes
            folderName (files ++ more)
          = foldl (scanFile ToLower EqualFold FindPatternMatches
                     rangeProblemTypes folderName)
              (scanFolder ToLower EqualFold FindPatternMatches
                 rangeProblemTypes folderName files) more) as ->
    by apply foldl_app.
  set (st := scanFolder _ _ _ _ folderName files) in *.
  pose proof (scanFiles_types_mono ToLower EqualFold FindPatternMatches
                rangeProblemTypes folderName more st) as Hmono.
  pose proof (scanFiles_prefix ToLower EqualFold FindPatternMatches
                rangeProblemTypes folderName more st) as Hpre.
  destruct (0 <? _) eqn:E.
  - eexists. split; [done|]. simpl. split; [|done].
    intros k. rewrite !sort_Strings_perm, !Hf, !elem_of_elements. apply Hmono.
  - apply Nat.ltb_ge in E.
    pose proof (subseteq_size _ _ Hmono). lia.
Qed.

(** The theorem at the folder of the example, a second transcript being
    added. *)
Lemma more_files_extend_the_result_witness :
  (∀ s : gset string, elements s ≡ₚ elements s)
  ∧ sampleAnalyze ["refund"; "billing"] (Some sampleFolder) "AAA-1"
    = Some sampleDialog
  ∧ ∃ d',
      sampleAnalyze ["refund"; "billing"]
        (Some (sampleFolder
               ++ [ {| Name := "conv_AAA-1_second_chat.json";
                       Data := ChatMessages [client "wrong charge, refund"] |} ]))
        "AAA-1" = Some d'
      ∧ Types sampleDialog ⊆ Types d'
      ∧ Triggers sampleDialog `prefix_of` Triggers d'.
Proof.
  assert (∀ s : gset string, elements s ≡ₚ elements s) as H1 by reflexivity.
  assert (sampleAnalyze ["refund"; "billing"] (Some sampleFolder) "AAA-1"
          = Some sampleDialog) as H2 by (vm_compute; reflexivity).
  split_and!; [exact H1|exact H2|].
  exact (more_files_extend_the_result asciiToLower asciiEqualFold sampleMatches
           (λ _, ["refund"; "billing"]) (λ s, elements s) sampleFolder
           [ {| Name := "conv_AAA-1_second_chat.json";
                Data := ChatMessages [client "wrong charge, refund"] |} ]
           "AAA-1" sampleDialog H1 H2).
Defined.

Example sample_second_transcript :
  Triggers <$>
    sampleAnalyze ["refund"; "billing"]
      (Some (sampleFolder
             ++ [ {| Name := "conv_AAA-1_second_chat.json";
                     Data := ChatMessages [client "wrong charge, refund"] |} ]))
      "AAA-1"
  = Some ["Refund"; "charge"].
Proof. vm_compute. reflexivity. Qed.

(** ** More about [main] and [printStatistics] *)

(** Extra X12: the run ends with the report of a type directory that
    could not be made exactly when some visited type directory cannot be
    made; the type reported is visited and its directory is the one that
    failed; and this happens whatever the input root is, readable or not:
    the root is not looked at. *)
Theorem type_directory_failure_ends_run
    (ToLower : string → string) (EqualFold : string → string → bool)
    (FindPatternMatches : string → string → list string)
    (mkdirTypeDir : string → bool) (mkdirDialogDir : string → string → bool)
    (rangeTypeDirs : list string)
    (rangeProblemTypesOf : string → nat → list string)
    (rangeFoundTypes : gset string → list string)
    (arrival : list ProblematicDialog → list ProblematicDialog) :
  (∀ root typeKey,
     main ToLower EqualFold FindPatternMatches mkdirTypeDir mkdirDialogDir
       rangeTypeDirs rangeProblemTypesOf rangeFoundTypes arrival root
     = MkdirTypeFailed typeKey →
     typeKey ∈ rangeTypeDirs ∧ mkdirTypeDir typeKey = false)
  ∧ (∀ root, (∃ typeKey, typeKey ∈ rangeTypeDirs ∧ mkdirTypeDir typeKey = false) →
       ∃ typeKey,
         main ToLower EqualFold FindPatternMatches mkdirTypeDir mkdirDialogDir
           rangeTypeDirs rangeProblemTypesOf rangeFoundTypes arrival root
         = MkdirTypeFailed typeKey
         ∧ main ToLower EqualFold FindPatternMatches mkdirTypeDir mkdirDialogDir
             rangeTypeDirs rangeProblemTypesOf rangeFoundTypes arrival None
           = MkdirTypeFailed typeKey).
Proof.
  unfold main. split.
  - intros root typeKey.
    destruct (find _ rangeTypeDirs) as [k|] eqn:E.
    + intros [= <-]. apply find_some in E as [Hin E].
      split; [by apply list_elem_of_In|]. by destruct (mkdirTypeDir k).
    + by destruct root.
  - intros root (k & Hin & Hk).
    destruct (find _ rangeTypeDirs) as [k'|] eqn:E; [by exists k'|].
    apply list_elem_of_In in Hin.
    pose proof (find_none _ _ E k Hin) as H. simpl in H. by rewrite Hk in H.
Qed.

Lemma scanFolders_nothing ToLower EqualFold FindPatternMatches
    rangeProblemTypesOf rangeFoundTypes folders :
  (∀ e, e ∈ folders → IsDir e = true →
     analyzeDialogFolder ToLower EqualFold FindPatternMatches
       (rangeProblemTypesOf (entryName e)) rangeFoundTypes (entryDir e)
       (entryName e) = None) →
  scanFolders ToLower EqualFold FindPatternMatches rangeProblemTypesOf
    rangeFoundTypes folders = [].
Proof.
  induction folders as [|e folders IH]; intros H; [done|].
  unfold scanFolders. simpl. destruct (IsDir e) eqn:Ed; simpl.
  - rewrite (H e) by (done || apply list_elem_of_here).
    apply IH. intros e' He'. apply H. by apply list_elem_of_further.
  - apply IH. intros e' He'. apply H. by apply list_elem_of_further.
Qed.

(** Extra X13: a run over a root in which no directory gives a dialog (an
    empty root, only plain files, folders that cannot be listed or have no
    match) ends normally with both maps empty, and [printStatistics] then
    prints no type, the total 0 and no trigger. *)
Theorem run_without_dialogs_prints_zero
    (ToLower : string → string) (EqualFold : string → string → bool)
    (FindPatternMatches : string → string → list string)
    (mkdirTypeDir : string → bool) (mkdirDialogDir : string → string → bool)
    (rangeTypeDirs : list string)
    (rangeProblemTypesOf : string → nat → list string)
    (rangeFoundTypes : gset string → list string)
    (arrival : list ProblematicDialog → list ProblematicDialog)
    (sortSlice : (StatsItem → StatsItem → bool) → list StatsItem → list StatsItem)
    (rangeStats : gmap string nat → list (string * nat))
    (rangeAllDialogs :
       gmap string (list ProblematicDialog) →
       list (string * list ProblematicDialog))
    (rangeTriggerStats : gmap string nat → list (string * nat))
    (folders : list RootEntry) :
  Forall (λ typeKey, mkdirTypeDir typeKey = true) rangeTypeDirs →
  (∀ e, e ∈ folders → IsDir e = true →
     analyzeDialogFolder ToLower EqualFold FindPatternMatches
       (rangeProblemTypesOf (entryName e)) rangeFoundTypes (entryDir e)
       (entryName e) = None) →
  (∀ l, arrival l ≡ₚ l) →
  (∀ l, sortSlice lessCount l ≡ₚ l) →
  (∀ m, rangeStats m ≡ₚ map_to_list m) →
  (∀ m, rangeAllDialogs m ≡ₚ map_to_list m) →
  (∀ m, rangeTriggerStats m ≡ₚ map_to_list m) →
  main ToLower EqualFold FindPatternMatches mkdirTypeDir mkdirDialogDir
    rangeTypeDirs rangeProblemTypesOf rangeFoundTypes arrival (Some folders)
  = Finished emptyAggregate
  ∧ printStatistics sortSlice rangeStats rangeAllDialogs rangeTriggerStats
      (stats emptyAggregate) (allDialogs emptyAggregate)
    = {| typeLines := []; totalLine := 0; triggerLines := [] |}.
Proof.
  intros Hmk Hnone Ha Hsort Hs Hd Ht. split.
  - unfold main. destruct (find _ rangeTypeDirs) as [k|] eqn:E.
    + apply find_some in E as [Hin E]. rewrite Forall_forall in Hmk.
      apply list_elem_of_In, Hmk in Hin. by rewrite Hin in E.
    + rewrite scanFolders_nothing by done.
      by rewrite (proj1 (Permutation_nil_r _) (Ha [])).
  - assert (∀ (A : Type) (l : list A), l ≡ₚ [] → l = []) as Hnil
      by (intros A l; apply Permutation_nil_r).
    assert (rangeStats ∅ = []) as Hs0
      by (apply Hnil; by rewrite Hs, map_to_list_empty).
    assert (rangeAllDialogs ∅ = []) as Hd0
      by (apply Hnil; by rewrite Hd, map_to_list_empty).
    assert (rangeTriggerStats ∅ = []) as Ht0
      by (apply Hnil; by rewrite Ht, map_to_list_empty).
    assert (sortSlice lessCount [] = []) as Hsort0 by apply Hnil, Hsort.
    unfold printStatistics, total, topTriggers, triggerList, statsList,
      triggerStats. simpl.
    by rewrite Hs0, Hd0; simpl; rewrite Ht0; simpl; rewrite Hsort0.
Qed.

(** The theorem at a root with a plain file, a folder without a client's
    trigger and a folder that cannot be listed. *)
Lemma run_without_dialogs_witness :
  sampleMain (λ _ _, true) reverse
    (Some [ {| entryName := "README.txt"; IsDir := false; entryDir := None |};
            {| entryName := "BBB-2"; IsDir := true;
               entryDir := Some [ {| Name := "conv_BBB-2_chat.json";
                                     Data := ChatMessages [operator "refund"] |} ] |};
            {| entryName := "CCC-3"; IsDir := true; entryDir := None |} ])
  = Finished emptyAggregate
  ∧ printStatistics insertionSort rangeDescending rangeDescending rangeDescending
      (stats emptyAggregate) (allDialogs emptyAggregate)
    = {| typeLines := []; totalLine := 0; triggerLines := [] |}.
Proof.
  apply (run_without_dialogs_prints_zero asciiToLower asciiEqualFold
           sampleMatches (λ _, true) (λ _ _, true) ["billing"; "refund"]
           sampleOrders (λ s, elements s) reverse insertionSort
           rangeDescending rangeDescending rangeDescending).
  - by repeat constructor.
  - intros e He Hdir.
    repeat (apply elem_of_cons in He as [-> | He]; [by vm_compute|]).
    by apply elem_of_nil in He.
  - apply reverse_Permutation.
  - apply insertionSort_perm.
  - intros m. apply rangeDescending_perm.
  - intros m. apply rangeDescending_perm.
  - intros m. apply rangeDescending_perm.
Defined.

Lemma toItems_keys l : TypeKey <$> toItems l = l.*1.
Proof.
  unfold toItems. induction l as [|[k c] l IH]; [done|].
  rewrite !fmap_cons. by rewrite IH.
Qed.

Lemma toItems_elem l item :
  item ∈ toItems l ↔ (TypeKey item, Count item) ∈ l.
Proof.
  unfold toItems. rewrite list_elem_of_fmap. split.
  - intros ([k c] & -> & H). done.
  - intros H. exists (TypeKey item, Count item). split; [by destruct item|done].
Qed.

Section SortedItems.

Variable sortSlice :
  (StatsItem → StatsItem → bool) → list StatsItem → list StatsItem.
Hypothesis sort_perm : ∀ l, sortSlice lessCount l ≡ₚ l.
Hypothesis sort_sorted :
  ∀ l, Sorted (λ a b, lessCount b a = false) (sortSlice lessCount l).

(** The items of a map, sorted as [printStatistics] sorts them. *)
Lemma sorted_items_descending order :
  StronglySorted (λ a b, Count b ≤ Count a)
    (sortSlice lessCount (toItems order)).
Proof.
  apply Sorted_StronglySorted.
  - intros a b c. lia.
  - eapply Sorted_weaken; [|apply sort_sorted]. intros a b.
    apply lessCount_false.
Qed.

Lemma sorted_items_elem (m : gmap string nat) order item :
  order ≡ₚ map_to_list m →
  item ∈ sortSlice lessCount (toItems order) ↔
  m !! TypeKey item = Some (Count item).
Proof.
  intros H. by rewrite sort_perm, toItems_elem, H, elem_of_map_to_list.
Qed.

Lemma sorted_items_keys (m : gmap string nat) order :
  order ≡ₚ map_to_list m →
  NoDup (TypeKey <$> sortSlice lessCount (toItems order)).
Proof.
  intros H. rewrite sort_perm, toItems_keys, H. apply NoDup_fst_map_to_list.
Qed.

Lemma sorted_items_length (m : gmap string nat) order :
  order ≡ₚ map_to_list m →
  length (sortSlice lessCount (toItems order)) = size m.
Proof.
  intros H. rewrite sort_perm. unfold toItems.
  by rewrite length_fmap, H, length_map_to_list.
Qed.

End SortedItems.

(** Extra X14: [printStatistics] prints the ten most frequent triggers,
    or all of them when there are fewer: the printed triggers are distinct
    keys of the trigger counts with their counts, no printed count is
    smaller than a later one, and a trigger that is not printed has a
    count no greater than any printed one. *)
Theorem top_triggers_are_the_most_frequent
    (sortSlice : (StatsItem → StatsItem → bool) → list StatsItem → list StatsItem)
    (rangeAllDialogs :
       gmap string (list ProblematicDialog) →
       list (string * list ProblematicDialog))
    (rangeTriggerStats : gmap string nat → list (string * nat))
    (allDialogs : gmap string (list ProblematicDialog)) :
  (∀ l, sortSlice lessCount l ≡ₚ l) →
  (∀ l, Sorted (λ a b, lessCount b a = false) (sortSlice lessCount l)) →
  (∀ m, rangeTriggerStats m ≡ₚ map_to_list m) →
  length (topTriggers sortSlice rangeAllDialogs rangeTriggerStats allDialogs)
  = min 10 (size (triggerStats rangeAllDialogs allDialogs))
  ∧ StronglySorted (λ a b, Count b ≤ Count a)
      (topTriggers sortSlice rangeAllDialogs rangeTriggerStats allDialogs)
  ∧ NoDup (TypeKey <$>
             topTriggers sortSlice rangeAllDialogs rangeTriggerStats allDialogs)
  ∧ (∀ item,
       item ∈ topTriggers sortSlice rangeAllDialogs rangeTriggerStats allDialogs →
       triggerStats rangeAllDialogs allDialogs !! TypeKey item
       = Some (Count item))
  ∧ (∀ trigger count,
       triggerStats rangeAllDialogs allDialogs !! trigger = Some count →
       {| TypeKey := trigger; Count := count |}
         ∈ topTriggers sortSlice rangeAllDialogs rangeTriggerStats allDialogs
       ∨ ∀ item,
           item ∈ topTriggers sortSlice rangeAllDialogs rangeTriggerStats
                    allDialogs →
           count ≤ Count item).
Proof.
  intros Hperm Hsorted Hrange. unfold topTriggers, triggerList.
  set (counts := triggerStats rangeAllDialogs allDialogs).
  set (l := sortSlice lessCount (toItems (rangeTriggerStats counts))).
  assert (StronglySorted (λ a b, Count b ≤ Count a) l) as Hs
    by by apply sorted_items_descending.
  assert (∀ item, item ∈ l ↔ counts !! TypeKey item = Some (Count item)) as Hin
    by (intros item; by apply sorted_items_elem).
  assert (NoDup (TypeKey <$> l)) as Hnd by by eapply sorted_items_keys.
  assert (length l = size counts) as Hlen by by apply sorted_items_length.
  rewrite <- (take_drop 10 l) in Hs, Hnd.
  split_and!.
  - by rewrite length_take, Hlen.
  - by apply StronglySorted_app_1_l in Hs.
  - rewrite fmap_app in Hnd. by apply NoDup_app in Hnd as [? _].
  - intros item Hitem. apply Hin.
    rewrite <- (take_drop 10 l), elem_of_app. by left.
  - intros trigger count Hc.
    assert ({| TypeKey := trigger; Count := count |} ∈ l) as Hl by by apply Hin.
    rewrite <- (take_drop 10 l), elem_of_app in Hl.
    destruct Hl as [Hl | Hl]; [by left|]. right. intros item Hitem.
    by apply (StronglySorted_app_1_elem_of _ _ _ item _ Hs Hitem Hl).
Qed.

(** The theorem at the dialogs of the example. *)
Lemma top_triggers_witness :
  (∀ l, insertionSort lessCount l ≡ₚ l)
  ∧ (∀ l, Sorted (λ a b, lessCount b a = false) (insertionSort lessCount l))
  ∧ (∀ m : gmap string nat, rangeDescending m ≡ₚ map_to_list m)
  ∧ length (topTriggers insertionSort rangeDescending rangeDescending
              (allDialogs sampleAggregate))
    = min 10 (size (triggerStats rangeDescending (allDialogs sampleAggregate))).
Proof.
  assert (∀ l, insertionSort lessCount l ≡ₚ l) as H1
    by apply insertionSort_perm.
  assert (∀ l, Sorted (λ a b, lessCount b a = false) (insertionSort lessCount l))
    as H2 by apply (insertionSort_sorted lessCount lessCount_asym).
  assert (∀ m : gmap string nat, rangeDescending m ≡ₚ map_to_list m) as H3
    by (intros m; apply rangeDescending_perm).
  split_and!; [exact H1|exact H2|exact H3|].
  exact (proj1 (top_triggers_are_the_most_frequent insertionSort rangeDescending
                  rangeDescending (allDialogs sampleAggregate) H1 H2 H3)).
Defined.

Example sample_top_triggers :
  topTriggers insertionSort rangeDescending rangeDescending
    (allDialogs sampleAggregate)
  = [ {| TypeKey := "refund"; Count := 2 |};
      {| TypeKey := "Refund"; Count := 2 |} ].
Proof. vm_compute. reflexivity. Qed.

(** Extra X15: the number that [printStatistics] prints as the total of
    problematic dialogs after a run is the number of pairs of a dialog and
    one of its types: a dialog with [n] types is counted [n] times. *)
Theorem printed_total_counts_every_type_of_every_dialog
    (ToLower : string → string) (EqualFold : string → string → bool)
    (FindPatternMatches : string → string → list string)
    (mkdirTypeDir : string → bool) (mkdirDialogDir : string → string → bool)
    (rangeTypeDirs : list string)
    (rangeProblemTypesOf : string → nat → list string)
    (rangeFoundTypes : gset string → list string)
    (arrival : list ProblematicDialog → list ProblematicDialog)
    (sortSlice : (StatsItem → StatsItem → bool) → list StatsItem → list StatsItem)
    (rangeStats : gmap string nat → list (string * nat))
    (rangeAllDialogs :
       gmap string (list ProblematicDialog) →
       list (string * list ProblematicDialog))
    (rangeTriggerStats : gmap string nat → list (string * nat))
    (folders : list RootEntry) (agg : Aggregate) :
  (∀ l, arrival l ≡ₚ l) →
  (∀ l, sortSlice lessCount l ≡ₚ l) →
  (∀ m, rangeStats m ≡ₚ map_to_list m) →
  main ToLower EqualFold FindPatternMatches mkdirTypeDir mkdirDialogDir
    rangeTypeDirs rangeProblemTypesOf rangeFoundTypes arrival (Some folders)
  = Finished agg →
  totalLine (printStatistics sortSlice rangeStats rangeAllDialogs
               rangeTriggerStats (stats agg) (allDialogs agg))
  = sum_list_with (λ d, length (Types d))
      (scanFolders ToLower EqualFold FindPatternMatches rangeProblemTypesOf
         rangeFoundTypes folders).
Proof.
  intros Ha Hsort Hrange (? & [= <-] & ->)%main_finished. simpl.
  rewrite total_is_sumCounts by done.
  by rewrite aggregate_sum, Ha.
Qed.

(** The theorem at the root of the example: two dialogs, four pairs. *)
Lemma printed_total_witness :
  (∀ l : list ProblematicDialog, reverse l ≡ₚ l)
  ∧ (∀ l, insertionSort lessCount l ≡ₚ l)
  ∧ (∀ m : gmap string nat, rangeDescending m ≡ₚ map_to_list m)
  ∧ totalLine (printStatistics insertionSort rangeDescending rangeDescending
                 rangeDescending
                 (stats (aggregate (λ _ _, true)
                           (reverse (sampleScanFolders sampleRoot))))
                 (allDialogs (aggregate (λ _ _, true)
                                (reverse (sampleScanFolders sampleRoot)))))
    = sum_list_with (λ d, length (Types d)) (sampleScanFolders sampleRoot).
Proof.
  assert (∀ l : list ProblematicDialog, reverse l ≡ₚ l) as H1
    by apply reverse_Permutation.
  assert (∀ l, insertionSort lessCount l ≡ₚ l) as H2
    by apply insertionSort_perm.
  assert (∀ m : gmap string nat, rangeDescending m ≡ₚ map_to_list m) as H3
    by (intros m; apply rangeDescending_perm).
  split_and!; [exact H1|exact H2|exact H3|].
  exact (printed_total_counts_every_type_of_every_dialog asciiToLower
           asciiEqualFold sampleMatches (λ _, true) (λ _ _, true)
           ["billing"; "refund"] sampleOrders (λ s, elements s) reverse
           insertionSort rangeDescending rangeDescending rangeDescending
           sampleRoot _ H1 H2 H3 eq_refl).
Defined.



Example sample_type_lines :
  typeLines
    (printStatistics insertionSort rangeDescending rangeDescending
       rangeDescending
       (stats (aggregate (λ _ folderName, negb (String.eqb folderName "BBB-2"))
                 (sampleScanFolders sampleRoot)))
       (allDialogs (aggregate
                      (λ _ folderName, negb (String.eqb folderName "BBB-2"))
                      (sampleScanFolders sampleRoot))))
  = [ ({| TypeKey := "refund"; Count := 2 |}, ["AAA-1"]);
      ({| TypeKey := "billing"; Count := 2 |}, ["AAA-1"]) ].
Proof. vm_compute. reflexivity. Qed.

(** ** The reports *)

Lemma append_empty_l (s : string) : EmptyString +:+ s = s.
Proof. reflexivity. Qed.

Lemma append_cons c (a b : string) : String c a +:+ b = String c (a +:+ b).
Proof. reflexivity. Qed.

Lemma LF_cons (s : string) : LF +:+ s = String (ascii_of_nat 10) s.
Proof. reflexivity. Qed.

(** Two texts that start with a line and its line feed have the same
    first line and the same rest. *)
Lemma line_cancel a b r r' :
  lineText a → lineText b →
  a +:+ LF +:+ r = b +:+ LF +:+ r' → a = b ∧ r = r'.
Proof.
  unfold lineText. revert b.
  induction a as [|c a IH]; intros [|c' b] Ha Hb;
    rewrite ?append_empty_l, ?append_cons, !LF_cons.
  - by intros [= ->].
  - intros [= <- _]. by simpl in Hb.
  - intros [= -> _]. by simpl in Ha.
  - intros [= -> H]. simpl in Ha, Hb.
    apply andb_true_iff in Ha as [_ Ha]. apply andb_true_iff in Hb as [_ Hb].
    rewrite <- !LF_cons in H. by destruct (IH b Ha Hb H) as [-> ->].
Qed.

Lemma infoContent_lines typeName dialog :
  infoContent typeName dialog
  = "Диалог: " +:+ ID dialog +:+ LF +:+ "Тип: " +:+ typeName +:+ LF +:+
    "Папка: " +:+ FolderName dialog +:+ LF +:+ "Найденные триггеры:" +:+ LF +:+
    foldr (λ trigger rest, "- " +:+ trigger +:+ LF +:+ rest) EmptyString
      (Triggers dialog).
Proof.
  unfold infoContent. generalize (Triggers dialog) as triggers.
  assert (∀ triggers content,
            foldl (λ infoContent trigger, infoContent +:+ "- " +:+ trigger +:+ LF)
              content triggers
            = content +:+
              foldr (λ trigger rest, "- " +:+ trigger +:+ LF +:+ rest)
                EmptyString triggers) as H.
  { induction triggers as [|t triggers IH]; intros content; simpl.
    - by rewrite append_empty_r.
    - by rewrite IH, !append_assoc_string. }
  intros triggers. by rewrite H, !append_assoc_string.
Qed.

Lemma trigger_lines_inj triggers triggers' :
  Forall lineText triggers → Forall lineText triggers' →
  foldr (λ trigger rest, "- " +:+ trigger +:+ LF +:+ rest) EmptyString triggers
  = foldr (λ trigger rest, "- " +:+ trigger +:+ LF +:+ rest) EmptyString triggers' →
  triggers = triggers'.
Proof.
  intros H. revert triggers'.
  induction H as [|t triggers Ht Hts IH]; intros [|t' triggers'] H'; simpl;
    try done.
  inv H'. intros E. apply (inj (String.app "- ")) in E.
  apply line_cancel in E as [-> E]; [|done..]. f_equal. by apply IH.
Qed.

(** Extra X17: the text of [trigger_info.txt] tells the dialog's ID, the
    name of the type, the folder name and the list of triggers apart: two
    reports with the same text were written for the same four, as long as
    none of these texts holds a line feed. *)
Theorem trigger_report_determines_its_data
    (typeName typeName' : string) (dialog dialog' : ProblematicDialog) :
  lineText (ID dialog) → lineText typeName → lineText (FolderName dialog) →
  Forall lineText (Triggers dialog) →
  lineText (ID dialog') → lineText typeName' → lineText (FolderName dialog') →
  Forall lineText (Triggers dialog') →
  infoContent typeName dialog = infoContent typeName' dialog' →
  ID dialog = ID dialog' ∧ typeName = typeName'
  ∧ FolderName dialog = FolderName dialog'
  ∧ Triggers dialog = Triggers dialog'.
Proof.
  intros Hid Hn Hf Ht Hid' Hn' Hf' Ht'. rewrite !infoContent_lines. intros E.
  apply (inj (String.app "Диалог: ")) in E.
  apply line_cancel in E as [-> E]; [|done..].
  apply (inj (String.app "Тип: ")) in E.
  apply line_cancel in E as [-> E]; [|done..].
  apply (inj (String.app "Папка: ")) in E.
  apply line_cancel in E as [-> E]; [|done..].
  apply (inj (String.app "Найденные триггеры:")) in E.
  apply (inj (String.app LF)) in E.
  split_and!; try done. by apply trigger_lines_inj.
Qed.

(** The theorem at the dialog of the example. *)
Lemma trigger_report_witness :
  lineText (ID sampleDialog) ∧ lineText "Refunds"
  ∧ lineText (FolderName sampleDialog) ∧ Forall lineText (Triggers sampleDialog)
  ∧ infoContent "Refunds" sampleDialog = infoContent "Refunds" sampleDialog
  ∧ Triggers sampleDialog = Triggers sampleDialog.
Proof.
  assert (lineText (ID sampleDialog)) as H1 by reflexivity.
  assert (lineText "Refunds") as H2 by reflexivity.
  assert (lineText (FolderName sampleDialog)) as H3 by reflexivity.
  assert (Forall lineText (Triggers sampleDialog)) as H4
    by (repeat constructor).
  split_and!; [exact H1|exact H2|exact H3|exact H4|reflexivity|].
  exact (proj2 (proj2 (proj2 (trigger_report_determines_its_data "Refunds"
    "Refunds" sampleDialog sampleDialog H1 H2 H3 H4 H1 H2 H3 H4 eq_refl)))).
Defined.

Example sample_report :
  infoContent "Refunds" sampleDialog
  = "Диалог: AAA-1" +:+ LF +:+ "Тип: Refunds" +:+ LF +:+ "Папка: AAA-1" +:+ LF
    +:+ "Найденные триггеры:" +:+ LF +:+ "- Refund" +:+ LF.
Proof. vm_compute. reflexivity. Qed.

Lemma concat_names (names : list string) (name : string) :
  String.concat ", " (name :: names)
  = name +:+ foldr (λ n rest, ", " +:+ n +:+ rest) EmptyString names.
Proof.
  revert name. induction names as [|n names IH]; intros name.
  - simpl. by rewrite append_empty_r.
  - change (String.concat ", " (name :: n :: names))
      with (name +:+ ", " +:+ String.concat ", " (n :: names)).
    by rewrite IH.
Qed.

Lemma writeFolderNames_later content i dialogs :
  writeFolderNames content (S i) dialogs
  = content +:+
    foldr (λ n rest, ", " +:+ n +:+ rest) EmptyString (FolderName <$> dialogs).
Proof.
  revert content i. induction dialogs as [|d dialogs IH]; intros content i.
  - simpl. by rewrite append_empty_r.
  - simpl. by rewrite IH, !append_assoc_string.
Qed.

(** Extra X18: in [INDEX.md] the folder names of the dialogs of a type
    are written in the order of the type's list with [", "] between two
    names and nothing before the first or after the last. *)
Theorem folder_names_are_joined_by_commas
    (content : string) (dialogs : list ProblematicDialog) :
  writeFolderNames content 0 dialogs
  = content +:+ String.concat ", " (FolderName <$> dialogs).
Proof.
  destruct dialogs as [|d dialogs].
  - simpl. by rewrite append_empty_r.
  - rewrite fmap_cons, concat_names. simpl.
    by rewrite writeFolderNames_later, append_assoc_string.
Qed.

Lemma indexSections_total typeName allDialogs entries acc :
  (foldl (indexSection typeName allDialogs) acc entries).2
  = acc.2 + sum_list_with snd entries.
Proof.
  revert acc. induction entries as [|e entries IH]; intros acc; simpl; [lia|].
  rewrite IH. simpl. lia.
Qed.

(** Extra X19: after a run that ends normally, the total that
    [createIndexFile] writes into [INDEX.md] is the total that
    [printStatistics] prints for the run's counts, whatever the orders in
    which the two functions visit the map: both are the sum of the counts,
    which is the number of types of the dialogs received, summed over the
    dialogs. *)
Theorem index_total_is_printed_total
    (ToLower : string → string) (EqualFold : string → string → bool)
    (FindPatternMatches : string → string → list string)
    (mkdirTypeDir : string → bool) (mkdirDialogDir : string → string → bool)
    (rangeTypeDirs : list string)
    (rangeProblemTypesOf : string → nat → list string)
    (rangeFoundTypes : gset string → list string)
    (arrival : list ProblematicDialog → list ProblematicDialog)
    (typeName : string → string)
    (sortSlice : (StatsItem → StatsItem → bool) → list StatsItem → list StatsItem)
    (rangeStats rangeStats' : gmap string nat → list (string * nat))
    (rangeIndexTypes : list string)
    (rangeAllDialogs :
       gmap string (list ProblematicDialog) →
       list (string * list ProblematicDialog))
    (rangeTriggerStats : gmap string nat → list (string * nat))
    (folders : list RootEntry) (agg : Aggregate) :
  (∀ l, arrival l ≡ₚ l) →
  (∀ l, sortSlice lessCount l ≡ₚ l) →
  (∀ m, rangeStats m ≡ₚ map_to_list m) →
  (∀ m, rangeStats' m ≡ₚ map_to_list m) →
  main ToLower EqualFold FindPatternMatches mkdirTypeDir mkdirDialogDir
    rangeTypeDirs rangeProblemTypesOf rangeFoundTypes arrival (Some folders)
  = Finished agg →
  createIndexFile typeName rangeStats' rangeIndexTypes (stats agg)
    (allDialogs agg)
  = foldl (indexStructureEntry typeName)
      (((foldl (indexSection typeName (allDialogs agg)) (indexHeader, 0)
           (rangeStats' (stats agg))).1
        +:+ indexTotalLine
              (totalLine (printStatistics sortSlice rangeStats rangeAllDialogs
                            rangeTriggerStats (stats agg) (allDialogs agg))))
       +:+ indexStructureHeader)
      rangeIndexTypes
    +:+ indexRules
  ∧ totalLine (printStatistics sortSlice rangeStats rangeAllDialogs
                 rangeTriggerStats (stats agg) (allDialogs agg))
    = sum_list_with (λ d, length (Types d))
        (scanFolders ToLower EqualFold FindPatternMatches rangeProblemTypesOf
           rangeFoundTypes folders).
Proof.
  intros Ha Hsort Hr Hr' (? & [= <-] & ->)%main_finished. simpl.
  rewrite total_is_sumCounts by done.
  split; [|by rewrite aggregate_sum, Ha]. unfold createIndexFile.
  set (agg := aggregate mkdirDialogDir _).
  assert ((foldl (indexSection typeName (allDialogs agg)) (indexHeader, 0)
             (rangeStats' (stats agg))).2 = sumCounts (stats agg)) as ->;
    [|done].
  by rewrite indexSections_total, sumCounts_map_to_list, Hr'.
Qed.

(** The theorem at the root of the example, the index visiting the counts
    in the reverse of the order of [printStatistics]. *)
Lemma index_total_witness :
  (∀ l : list ProblematicDialog, reverse l ≡ₚ l)
  ∧ (∀ l, insertionSort lessCount l ≡ₚ l)
  ∧ (∀ m : gmap string nat, rangeDescending m ≡ₚ map_to_list m)
  ∧ (∀ m : gmap string nat, reverse (rangeDescending m) ≡ₚ map_to_list m)
  ∧ totalLine (printStatistics insertionSort rangeDescending rangeDescending
                 rangeDescending
                 (stats (aggregate (λ _ _, true)
                           (reverse (sampleScanFolders sampleRoot))))
                 (allDialogs (aggregate (λ _ _, true)
                                (reverse (sampleScanFolders sampleRoot)))))
    = sum_list_with (λ d, length (Types d)) (sampleScanFolders sampleRoot).
Proof.
  assert (∀ l : list ProblematicDialog, reverse l ≡ₚ l) as H0
    by apply reverse_Permutation.
  assert (∀ l, insertionSort lessCount l ≡ₚ l) as H1
    by apply insertionSort_perm.
  assert (∀ m : gmap string nat, rangeDescending m ≡ₚ map_to_list m) as H2
    by (intros m; apply rangeDescending_perm).
  assert (∀ m : gmap string nat, reverse (rangeDescending m) ≡ₚ map_to_list m)
    as H3
    by (intros m; rewrite reverse_Permutation; apply rangeDescending_perm).
  split_and!; [exact H0|exact H1|exact H2|exact H3|].
  exact (proj2 (index_total_is_printed_total asciiToLower asciiEqualFold
                  sampleMatches (λ _, true) (λ _ _, true) ["billing"; "refund"]
                  sampleOrders (λ s, elements s) reverse (λ typeKey, typeKey)
                  insertionSort rangeDescending
                  (λ m, reverse (rangeDescending m)) ["billing"; "refund"]
                  rangeDescending rangeDescending sampleRoot _
                  H0 H1 H2 H3 eq_refl)).
Defined.

Example sample_index_section :
  (indexSection (λ typeKey, typeKey) (allDialogs sampleAggregate)
     (EmptyString, 0) ("refund", 2)).1
  = "### refund" +:+ LF +:+ "- **Количество диалогов:** 2" +:+ LF
    +:+ "- **Диалоги:** AAA-1, BBB-2" +:+ LF +:+ LF.
Proof. vm_compute. reflexivity. Qed.

(** ** The copies *)

Section MaterializeFacts.

Variable Join : list string → string.
Variable typeName : string → string.
Variable mkdirDialogDir : string → string → bool.
Variable readFile : string → option string.
Variable writeFile : string → string → bool.

Local Abbreviation matT :=
  (materializeType Join typeName mkdirDialogDir readFile writeFile).
Local Abbreviation matD :=
  (materializeDialog Join typeName mkdirDialogDir readFile writeFile).
Local Abbreviation okWrite := (reportOrCopy Join typeName readFile).
Local Abbreviation wrote := (materialized Join typeName readFile writeFile).

Lemma materializeType_aggregate dialog acc typeKey :
  (matT dialog acc typeKey).1 = aggregateType mkdirDialogDir dialog acc.1 typeKey.
Proof.
  unfold materializeType, aggregateType. by destruct (mkdirDialogDir _ _).
Qed.

Lemma materializeTypes_aggregate dialog keys acc :
  (foldl (matT dialog) acc keys).1
  = foldl (aggregateType mkdirDialogDir dialog) acc.1 keys.
Proof.
  revert acc. induction keys as [|k keys IH]; intros acc; [done|].
  simpl. by rewrite IH, materializeType_aggregate.
Qed.

Lemma materializeDialogs_aggregate dialogs acc :
  (foldl matD acc dialogs).1
  = foldl (aggregateDialog mkdirDialogDir) acc.1 dialogs.
Proof.
  revert acc. induction dialogs as [|d dialogs IH]; intros acc; [done|].
  simpl. rewrite IH. unfold materializeDialog, aggregateDialog.
  by rewrite materializeTypes_aggregate.
Qed.

(** *** The calls only grow *)

Lemma materializeType_calls dialog acc typeKey :
  acc.2 `prefix_of` (matT dialog acc typeKey).2.
Proof.
  unfold materializeType. destruct (mkdirDialogDir _ _); by apply prefix_app_r.
Qed.

Lemma materializeTypes_calls dialog keys acc :
  acc.2 `prefix_of` (foldl (matT dialog) acc keys).2.
Proof.
  revert acc. induction keys as [|k keys IH]; intros acc; [done|].
  simpl. etrans; [apply materializeType_calls|apply IH].
Qed.

Lemma materializeDialogs_calls dialogs acc :
  acc.2 `prefix_of` (foldl matD acc dialogs).2.
Proof.
  revert acc. induction dialogs as [|d dialogs IH]; intros acc; [done|].
  simpl. etrans; [apply materializeTypes_calls|apply IH].
Qed.

Lemma prefix_elem {A} (l l' : list A) x : l `prefix_of` l' → x ∈ l → x ∈ l'.
Proof. intros [k ->] H. apply elem_of_app. by left. Qed.

(** *** What is written *)

Lemma copyFile_write dialog typeKey file path content ok :
  file ∈ Files dialog →
  WriteFile path content ok
    ∈ copyFile Join readFile writeFile dialog
        (Join [outputBaseDir; typeKey; FolderName dialog]) file →
  ok = writeFile path content ∧ okWrite dialog typeKey path content.
Proof.
  intros Hfile. unfold copyFile.
  destruct (readFile _) as [input|] eqn:E.
  - rewrite !elem_of_cons, elem_of_nil. intros [H | [[= -> -> ->] | []]]; [done|].
    split; [done|]. right. by exists file.
  - rewrite list_elem_of_singleton. done.
Qed.

Lemma materializeType_write dialog acc typeKey path content ok :
  WriteFile path content ok ∈ (matT dialog acc typeKey).2 →
  WriteFile path content ok ∈ acc.2
  ∨ (mkdirDialogDir typeKey (FolderName dialog) = true
     ∧ ok = writeFile path content ∧ okWrite dialog typeKey path content).
Proof.
  unfold materializeType.
  destruct (mkdirDialogDir typeKey (FolderName dialog)) eqn:E; simpl.
  - rewrite elem_of_app, elem_of_cons, elem_of_app, list_elem_of_singleton.
    intros [H | [H | [H | [= -> -> ->]]]]; [by left|done| |].
    + apply list_elem_of_bind in H as (file & H & Hfile).
      right. split; [done|]. by eapply copyFile_write.
    + right. split; [done|]. split; [done|]. by left.
  - rewrite elem_of_app, list_elem_of_singleton. intros [H | H]; [by left|done].
Qed.

Lemma materializeTypes_write dialog keys acc path content ok :
  WriteFile path content ok ∈ (foldl (matT dialog) acc keys).2 →
  WriteFile path content ok ∈ acc.2
  ∨ ∃ typeKey, typeKey ∈ keys
      ∧ mkdirDialogDir typeKey (FolderName dialog) = true
      ∧ ok = writeFile path content ∧ okWrite dialog typeKey path content.
Proof.
  revert acc. induction keys as [|k keys IH]; intros acc; [by left|].
  simpl. intros [[H | H]%materializeType_write | (k' & Hk' & H)]%IH.
  - by left.
  - right. exists k. split; [apply list_elem_of_here|done].
  - right. exists k'. split; [by apply list_elem_of_further|done].
Qed.

Lemma materializeDialogs_write dialogs acc path content ok :
  WriteFile path content ok ∈ (foldl matD acc dialogs).2 →
  WriteFile path content ok ∈ acc.2
  ∨ ∃ dialog typeKey, dialog ∈ dialogs ∧ typeKey ∈ Types dialog
      ∧ mkdirDialogDir typeKey (FolderName dialog) = true
      ∧ ok = writeFile path content ∧ okWrite dialog typeKey path content.
Proof.
  revert acc. induction dialogs as [|d dialogs IH]; intros acc; [by left|].
  simpl. intros [[H | (k & Hk & H)]%materializeTypes_write
                | (d' & k & Hd' & H)]%IH.
  - by left.
  - right. exists d, k. split; [apply list_elem_of_here|done].
  - right. exists d', k. split; [by apply list_elem_of_further|done].
Qed.

(** *** What is listed was written *)

Lemma wrote_prefix d t calls calls' :
  calls `prefix_of` calls' → wrote d t calls → wrote d t calls'.
Proof.
  intros Hp [Hinfo Hfiles]. split; [by eapply prefix_elem|].
  intros file content Hfile Hread. eapply prefix_elem; [done|by apply Hfiles].
Qed.

Lemma materializeType_done dialog acc typeKey :
  (∀ d t, d ∈ allDialogs acc.1 !!! t → wrote d t acc.2) →
  ∀ d t, d ∈ allDialogs (matT dialog acc typeKey).1 !!! t →
         wrote d t (matT dialog acc typeKey).2.
Proof.
  intros H d t Hd.
  pose proof (materializeType_calls dialog acc typeKey) as Hp.
  rewrite materializeType_aggregate, aggregateType_lists in Hd.
  apply elem_of_app in Hd as [Hd | Hd]; [by eapply wrote_prefix, H|].
  case_decide as Hk; [|by apply elem_of_nil in Hd].
  destruct Hk as [-> Hmk]. apply list_elem_of_singleton in Hd as ->.
  unfold materializeType. rewrite Hmk. simpl. split.
  - rewrite elem_of_app, elem_of_cons, elem_of_app, list_elem_of_singleton.
    auto.
  - intros file content Hfile Hread.
    rewrite elem_of_app, elem_of_cons, elem_of_app. right. right. left.
    apply list_elem_of_bind. exists file. split; [|done].
    unfold copyFile. rewrite Hread.
    apply list_elem_of_further, list_elem_of_here.
Qed.

Lemma materializeTypes_done dialog keys acc :
  (∀ d t, d ∈ allDialogs acc.1 !!! t → wrote d t acc.2) →
  ∀ d t, d ∈ allDialogs (foldl (matT dialog) acc keys).1 !!! t →
         wrote d t (foldl (matT dialog) acc keys).2.
Proof.
  revert acc. induction keys as [|k keys IH]; intros acc H; [done|].
  simpl. by apply IH, materializeType_done.
Qed.

Lemma materializeDialogs_done dialogs acc :
  (∀ d t, d ∈ allDialogs acc.1 !!! t → wrote d t acc.2) →
  ∀ d t, d ∈ allDialogs (foldl matD acc dialogs).1 !!! t →
         wrote d t (foldl matD acc dialogs).2.
Proof.
  revert acc. induction dialogs as [|d' dialogs IH]; intros acc H; [done|].
  simpl. by apply IH, materializeTypes_done.
Qed.

End MaterializeFacts.

(** Extra X20: copying the files and writing the reports has no part in
    the two maps: with the calls on the file system written out, [stats]
    and [allDialogs] are the maps of the aggregation, which only the
    making of the dialogs' directories decides. *)
Theorem copies_do_not_touch_the_maps
    (Join : list string → string) (typeName : string → string)
    (mkdirDialogDir : string → string → bool)
    (readFile : string → option string) (writeFile : string → string → bool)
    (dialogs : list ProblematicDialog) :
  (materialize Join typeName mkdirDialogDir readFile writeFile dialogs).1
  = aggregate mkdirDialogDir dialogs.
Proof. unfold materialize, aggregate. by rewrite materializeDialogs_aggregate. Qed.

(** Extra X21: whatever [main] writes while it aggregates is, for a
    received dialog, one of its types and a directory that could be made,
    either the trigger report of the dialog under the type or the content
    just read from a file of the dialog's folder, written under the
    file's name into the dialog's directory below the type. *)
Theorem writes_are_reports_or_verbatim_copies
    (Join : list string → string) (typeName : string → string)
    (mkdirDialogDir : string → string → bool)
    (readFile : string → option string) (writeFile : string → string → bool)
    (dialogs : list ProblematicDialog) :
  Forall (λ call,
            match call with
            | WriteFile path content ok =>
                ∃ dialog typeKey,
                  dialog ∈ dialogs ∧ typeKey ∈ Types dialog
                  ∧ mkdirDialogDir typeKey (FolderName dialog) = true
                  ∧ ok = writeFile path content
                  ∧ reportOrCopy Join typeName readFile dialog typeKey path
                      content
            | _ => True
            end)
    (materialize Join typeName mkdirDialogDir readFile writeFile dialogs).2.
Proof.
  apply Forall_forall. intros [| |path content ok] Hcall; [done|done|].
  apply materializeDialogs_write in Hcall as [H | H]; [|done].
  by apply elem_of_nil in H.
Qed.

(** Extra X22: for every dialog in the list of a type, the trigger report
    of the dialog under the type was written, and so was, under its name,
    every file of the dialog's folder that could be read. *)
Theorem listed_dialogs_were_written
    (Join : list string → string) (typeName : string → string)
    (mkdirDialogDir : string → string → bool)
    (readFile : string → option string) (writeFile : string → string → bool)
    (dialogs : list ProblematicDialog) (typeKey : string) :
  Forall (λ dialog,
            materialized Join typeName readFile writeFile dialog typeKey
              (materialize Join typeName mkdirDialogDir readFile writeFile
                 dialogs).2)
    (allDialogs
       (materialize Join typeName mkdirDialogDir readFile writeFile dialogs).1
     !!! typeKey).
Proof.
  apply Forall_forall. intros d Hd. unfold materialize in *.
  apply materializeDialogs_done; [|done].
  intros d' t. simpl. rewrite lookup_total_empty. by intros ?%elem_of_nil.
Qed.

Example sample_calls :
  (sampleMaterialize [sampleDialog]).2
  = [ MkdirAll "./problematicDialogs/billing/AAA-1" true;
      ReadFile "./output/conversations/AAA-1/conv_AAA-1_chat.json" true;
      WriteFile "./problematicDialogs/billing/AAA-1/conv_AAA-1_chat.json"
        "./output/conversations/AAA-1/conv_AAA-1_chat.json" true;
      ReadFile "./output/conversations/AAA-1/conv_AAA-1_info.json" false;
      WriteFile "./problematicDialogs/billing/AAA-1/trigger_info.txt"
        (infoContent "billing" sampleDialog) true;
      MkdirAll "./problematicDialogs/refund/AAA-1" true;
      ReadFile "./output/conversations/AAA-1/conv_AAA-1_chat.json" true;
      WriteFile "./problematicDialogs/refund/AAA-1/conv_AAA-1_chat.json"
        "./output/conversations/AAA-1/conv_AAA-1_chat.json" true;
      ReadFile "./output/conversations/AAA-1/conv_AAA-1_info.json" false;
      WriteFile "./problematicDialogs/refund/AAA-1/trigger_info.txt"
        (infoContent "refund" sampleDialog) true ].
Proof. vm_compute. reflexivity. Qed.
